(** * job-snap-ats-backend: the resume evaluation handler of [main.py]

    A shallow embedding of [ats_optimize_resume] (the single endpoint of the
    backend) together with the parts of the Python runtime it relies on:
    [str.startswith], [str.strip], [str.replace], slicing, [json.loads],
    [dict.get], [isinstance(_, int)] and the [try]/[except]/[finally]
    discipline.

    Conventions of the model.
    - A Python [str] is the list of its Unicode code points ([list N]), so
      that [text[:200]] counts characters and the [\uXXXX] escapes of JSON
      can be decoded.
    - The handler runs in a small state-and-exception monad.  The state holds
      the local variable [uploaded_file] and the log of calls made to the AI
      service; the state survives a raised exception, as it does in Python.
    - The AI service is a record of three functions giving the outcome of the
      upload, generation and deletion calls, and the [types] module of the
      client library a record of the constructors the handler calls to build
      the generation request.  Errors raised by the library are instances of
      [Exception].
    - The two limits of the interpreter that [json.loads] can hit are
      parameters of the model: the room left below the recursion limit
      ([RecursionError] on deeper nesting) and the largest number of digits
      of an integer literal ([ValueError] on a longer one).
    - What [print] writes to standard output is not modelled. *)

From Stdlib Require Import ZArith NArith List Bool String Ascii Lia
  DecimalString.
Import ListNotations.

Set Implicit Arguments.
Set Warnings "-register-all".

(* ===================================================================== *)
(** ** Python strings *)
(* ===================================================================== *)

Module PyStr.

(** A [str] is a sequence of code points. *)
Definition str := list N.

(** [lit s] is the [str] of an ASCII literal [s] of the source. *)
Definition lit (s : string) : str :=
  map N_of_ascii (list_ascii_of_string s).

(** [qlit s] is [lit s] with every apostrophe turned into a quotation mark
    (code point 34): JSON texts are written with apostrophes below. *)
Definition qlit (s : string) : str :=
  map (fun c => if (c =? 39)%N then 34%N else c) (lit s).

Definition str_eqb (a b : str) : bool :=
  if list_eq_dec N.eq_dec a b then true else false.

(** [s.startswith(p)] *)
Fixpoint startswith (p s : str) : bool :=
  match p, s with
  | [], _ => true
  | _ :: _, [] => false
  | a :: p', b :: s' => N.eqb a b && startswith p' s'
  end.

(** [s.startswith((p1, p2, ...))]: a tuple of prefixes. *)
Definition startswith_any (ps : list str) (s : str) : bool :=
  existsb (fun p => startswith p s) ps.

(** [old in s]: substring test. *)
Fixpoint contains (old s : str) : bool :=
  startswith old s ||
  match s with
  | [] => false
  | _ :: s' => contains old s'
  end.

(** The characters for which [str.isspace()] holds; [str.strip()] without
    argument removes them from both ends. *)
Definition isspace (c : N) : bool :=
  ((9 <=? c) && (c <=? 13) || (28 <=? c) && (c <=? 32) ||
   (c =? 133) || (c =? 160) || (c =? 5760) ||
   (8192 <=? c) && (c <=? 8202) || (c =? 8232) || (c =? 8233) ||
   (c =? 8239) || (c =? 8287) || (c =? 12288))%N.

Fixpoint lstrip (s : str) : str :=
  match s with
  | [] => []
  | c :: s' => if isspace c then lstrip s' else s
  end.

Definition rstrip (s : str) : str := rev (lstrip (rev s)).

(** [s.strip()] *)
Definition strip (s : str) : str := rstrip (lstrip s).

(** [s.replace(old, new)] for a non-empty [old]: the occurrences of [old]
    are found from left to right and do not overlap.  [skip] counts the
    characters of a matched occurrence that remain to be dropped. *)
Fixpoint replace_from (old new : str) (skip : nat) (s : str) : str :=
  match s with
  | [] => []
  | c :: s' =>
      match skip with
      | S k => replace_from old new k s'
      | O =>
          if startswith old s
          then new ++ replace_from old new (List.length old - 1) s'
          else c :: replace_from old new 0 s'
      end
  end.

Definition replace (old new s : str) : str := replace_from old new 0 s.

(** [s[:n]] *)
Definition slice_to (n : nat) (s : str) : str := firstn n s.

End PyStr.
Import PyStr.


(* ===================================================================== *)
(** ** Exceptions *)
(* ===================================================================== *)

Module PyExc.

(** The exceptions that can be in flight in the handler.  [ServiceError]
    stands for any [Exception] raised by the client library or by reading
    the upload; [JSONDecodeError] is a subclass of [ValueError]. *)
Inductive exn :=
| HTTPException (status_code : Z) (detail : str)
| JSONDecodeError
| ValueError (msg : str)
| AttributeError (msg : str)
| NameError (msg : str)
| RecursionError (msg : str)
| ServiceError (msg : str).

(** [str(e)], as interpolated into the detail of the 500 response.  The text
    of a [JSONDecodeError] is only ever printed. *)
Definition exn_str (e : exn) : str :=
  match e with
  | HTTPException c d => d
  | JSONDecodeError => lit "Expecting value"
  | ValueError m => m
  | AttributeError m => m
  | NameError m => m
  | RecursionError m => m
  | ServiceError m => m
  end.

(** [except Exception]: every exception of the model is one. *)
Definition is_Exception (e : exn) : bool := true.

(** [except (json.JSONDecodeError, ValueError)] *)
Definition is_JSONDecodeError_or_ValueError (e : exn) : bool :=
  match e with
  | JSONDecodeError | ValueError _ => true
  | _ => false
  end.

(** What a call gives: a value, or an exception. *)
Inductive result (A : Type) :=
| Ok (a : A)
| Raise (e : exn).
Arguments Raise {A}.

End PyExc.
Import PyExc.


(* ===================================================================== *)
(** ** Python values and [json.loads] *)
(* ===================================================================== *)

Module PyJson.

(** What the interpreter allows the decoder.  The scanner enters one level
    of recursion per enclosing JSON container, and [2 + recursion_room]
    containers can be nested before the recursion limit of the interpreter
    is hit: with less room than two levels [json.loads] cannot run its own
    code, which raises its errors from two frames above the scanner.
    [int_max_str_digits] is [sys.get_int_max_str_digits()], the largest
    number of digits [int] converts, 0 when there is no limit. *)
Record Interpreter := {
  recursion_room : nat;
  int_max_str_digits : nat
}.

(** A [float] produced by the decoder.  Only its being a float matters to
    the handler, so a finite literal is kept as its text. *)
Inductive pyfloat :=
| FNaN
| FInfinity
| FNegInfinity
| FLiteral (text : str).

(** The Python objects [json.loads] can build.  A [dict] keeps its items in
    insertion order, with one item per key. *)
Inductive pyval :=
| PNone
| PBool (b : bool)
| PInt (z : Z)
| PFloat (f : pyfloat)
| PStr (s : str)
| PList (l : list pyval)
| PDict (d : list (str * pyval)).

(** [d[k] = v] *)
Fixpoint dict_set (k : str) (v : pyval) (d : list (str * pyval))
  : list (str * pyval) :=
  match d with
  | [] => [(k, v)]
  | (k', v') :: d' =>
      if str_eqb k k' then (k', v) :: d' else (k', v') :: dict_set k v d'
  end.

(** [d.get(k)], [None] when the key is missing. *)
Fixpoint dict_lookup (k : str) (d : list (str * pyval)) : option pyval :=
  match d with
  | [] => None
  | (k', v') :: d' => if str_eqb k k' then Some v' else dict_lookup k d'
  end.

(** [d.get(k, default)] *)
Definition dict_get (d : list (str * pyval)) (k : str) (default : pyval)
  : pyval :=
  match dict_lookup k d with
  | Some v => v
  | None => default
  end.

(** [type(v).__name__] *)
Definition type_name (v : pyval) : str :=
  match v with
  | PNone => lit "NoneType"
  | PBool _ => lit "bool"
  | PInt _ => lit "int"
  | PFloat _ => lit "float"
  | PStr _ => lit "str"
  | PList _ => lit "list"
  | PDict _ => lit "dict"
  end.

(** Where the recursion limit is hit: on entering an object or an array,
    on calling a Python object from the scanner, on entering the frame of a
    Python function. *)
Inductive site := InObject | InArray | InCall | InFrame.

(** Outcome of a decoding step: a value and the text that follows it; a
    [JSONDecodeError]; the [ValueError] of [int] on a literal of [digits]
    digits; the [RecursionError] raised at the site [k]; or the end of
    [fuel], the bound that makes the decoder a structural recursion (never
    reached from [json_loads], see [scan_once_fuel]). *)
Inductive presult (A : Type) :=
| Parsed (a : A) (rest : str)
| DecodeError
| IntTooLong (digits : nat)
| TooDeep (k : site)
| NoFuel.
Arguments DecodeError {A}.
Arguments IntTooLong {A}.
Arguments TooDeep {A}.
Arguments NoFuel {A}.

Definition pmap {A B : Type} (f : A -> B) (r : presult A) : presult B :=
  match r with
  | Parsed a rest => Parsed (f a) rest
  | DecodeError => DecodeError
  | IntTooLong n => IntTooLong n
  | TooDeep k => TooDeep k
  | NoFuel => NoFuel
  end.

(** JSON whitespace: space, tab, line feed, carriage return. *)
Definition is_ws (c : N) : bool :=
  ((c =? 32) || (c =? 9) || (c =? 10) || (c =? 13))%N.

Fixpoint skip_ws (s : str) : str :=
  match s with
  | [] => []
  | c :: s' => if is_ws c then skip_ws s' else s
  end.

Definition is_digit (c : N) : bool := ((48 <=? c) && (c <=? 57))%N.

Definition hex_digit (c : N) : option N :=
  if is_digit c then Some (c - 48)%N
  else if ((97 <=? c) && (c <=? 102))%N then Some (c - 87)%N
  else if ((65 <=? c) && (c <=? 70))%N then Some (c - 55)%N
  else None.

Definition hex4 (a b c d : N) : option N :=
  match hex_digit a, hex_digit b, hex_digit c, hex_digit d with
  | Some x, Some y, Some z, Some w =>
      Some (((x * 16 + y) * 16 + z) * 16 + w)%N
  | _, _, _, _ => None
  end.

Definition is_high_surrogate (u : N) : bool :=
  ((55296 <=? u) && (u <=? 56319))%N.
Definition is_low_surrogate (u : N) : bool :=
  ((56320 <=? u) && (u <=? 57343))%N.
Definition join_surrogates (u u2 : N) : N :=
  (65536 + N.lor (N.shiftl (u - 55296) 10) (u2 - 56320))%N.

(** The one-character escapes after a backslash. *)
Definition unescape (e : N) : option N :=
  if (e =? 34)%N then Some 34%N        (* quotation mark *)
  else if (e =? 92)%N then Some 92%N   (* reverse solidus *)
  else if (e =? 47)%N then Some 47%N   (* solidus *)
  else if (e =? 98)%N then Some 8%N    (* b: backspace *)
  else if (e =? 102)%N then Some 12%N  (* f: form feed *)
  else if (e =? 110)%N then Some 10%N  (* n: line feed *)
  else if (e =? 114)%N then Some 13%N  (* r: carriage return *)
  else if (e =? 116)%N then Some 9%N   (* t: tab *)
  else None.

Definition pcons (c : N) (r : presult str) : presult str :=
  pmap (cons c) r.

(** [raise_errmsg]: apart from [Expecting value], which the scanner signals
    with [StopIteration], an error of the scanner is built by calling the
    class [JSONDecodeError], whose [__init__] is a Python function that
    calls methods of the text.  That takes three levels of recursion; with
    [free] levels left the call raises [RecursionError] instead. *)
Definition raise_errmsg {A : Type} (free : nat) : presult A :=
  match free with
  | 0 => TooDeep InCall
  | 1 => TooDeep InFrame
  | 2 => TooDeep InCall
  | _ => DecodeError
  end.

(** The errors of [scanstring] are raised with [raise_errmsg]. *)
Definition at_level {A : Type} (free : nat) (r : presult A) : presult A :=
  match r with
  | DecodeError => raise_errmsg free
  | _ => r
  end.

(** [_parse_constant] calls the Python object [parse_constant]. *)
Definition parse_constant {A : Type} (free : nat) (v : A) (rest : str)
  : presult A :=
  match free with
  | 0 => TooDeep InCall
  | S _ => Parsed v rest
  end.

(** [scanstring] in strict mode, started after the opening quote. *)
Fixpoint scanstring (s : str) : presult str :=
  match s with
  | [] => DecodeError                         (* unterminated string *)
  | c :: s1 =>
      if (c =? 34)%N then Parsed [] s1
      else if (c =? 92)%N then
        match s1 with
        | [] => DecodeError
        | e :: s2 =>
            if (e =? 117)%N then
              match s2 with
              | h1 :: h2 :: h3 :: h4 :: s3 =>
                  match hex4 h1 h2 h3 h4 with
                  | None => DecodeError       (* invalid \uXXXX escape *)
                  | Some u =>
                      if is_high_surrogate u then
                        match s3 with
                        | b :: e' :: l1 :: l2 :: l3 :: l4 :: s4 =>
                            if ((b =? 92) && (e' =? 117))%N then
                              match hex4 l1 l2 l3 l4 with
                              | None => DecodeError
                              | Some u2 =>
                                  if is_low_surrogate u2
                                  then pcons (join_surrogates u u2)
                                             (scanstring s4)
                                  else pcons u (scanstring s3)
                              end
                            else pcons u (scanstring s3)
                        | _ => pcons u (scanstring s3)
                        end
                      else pcons u (scanstring s3)
                  end
              | _ => DecodeError
              end
            else
              match unescape e with
              | Some c' => pcons c' (scanstring s2)
              | None => DecodeError           (* invalid \escape *)
              end
        end
      else if (c <=? 31)%N then DecodeError   (* invalid control character *)
      else pcons c (scanstring s1)
  end.

(** The longest run of decimal digits at the start of [s]. *)
Fixpoint span_digits (s : str) : str * str :=
  match s with
  | [] => ([], [])
  | c :: s' =>
      if is_digit c
      then let (ds, r) := span_digits s' in (c :: ds, r)
      else ([], s)
  end.

Definition digits_value (ds : str) : Z :=
  fold_left (fun acc c => (acc * 10 + Z.of_N (c - 48))%Z) ds 0%Z.

(** The integer part of a number: [0] or a non-zero digit followed by
    digits. *)
Definition match_integer (s : str) : option (str * str) :=
  match s with
  | [] => None
  | c :: s' =>
      if (c =? 48)%N then Some ([c], s')
      else if is_digit c then let (ds, r) := span_digits s' in Some (c :: ds, r)
      else None
  end.

(** The optional fraction: a dot followed by at least one digit. *)
Definition match_frac (s : str) : str * str :=
  match s with
  | c :: d :: s' =>
      if ((c =? 46)%N && is_digit d)%bool
      then let (ds, r) := span_digits s' in (c :: d :: ds, r)
      else ([], s)
  | _ => ([], s)
  end.

(** The optional exponent: [e] or [E], an optional sign, at least one
    digit. *)
Definition match_exp (s : str) : str * str :=
  match s with
  | c :: s1 =>
      if ((c =? 101) || (c =? 69))%N then
        match s1 with
        | d :: s2 =>
            if is_digit d
            then let (ds, r) := span_digits s2 in (c :: d :: ds, r)
            else if ((d =? 45) || (d =? 43))%N then
              match s2 with
              | d2 :: s3 =>
                  if is_digit d2
                  then let (ds, r) := span_digits s3 in
                       (c :: d :: d2 :: ds, r)
                  else ([], s)
              | [] => ([], s)
              end
            else ([], s)
        | [] => ([], s)
        end
      else ([], s)
  | [] => ([], s)
  end.

(** [int(literal)] refuses a literal of more than [max_digits] digits when
    a limit is set; a literal of at most 640 digits is never refused. *)
Definition int_too_long (max_digits digits : nat) : bool :=
  (640 <? digits) && (0 <? max_digits) && (max_digits <? digits).

(** [_match_number]: an [int] when there is neither fraction nor exponent,
    a [float] otherwise.  The integer is converted as soon as it is matched,
    and the conversion fails on too many digits. *)
Definition match_number (max_digits : nat) (s : str) : presult pyval :=
  let '(sign, s0) :=
    match s with
    | c :: s' => if (c =? 45)%N then ([c], s') else ([], s)
    | [] => ([], s)
    end in
  match match_integer s0 with
  | None => DecodeError                       (* expecting value *)
  | Some (ip, s1) =>
      let (fp, s2) := match_frac s1 in
      let (ep, s3) := match_exp s2 in
      match fp, ep with
      | [], [] =>
          if int_too_long max_digits (List.length ip)
          then IntTooLong (List.length ip)
          else
            let v := digits_value ip in
            Parsed (PInt (match sign with [] => v | _ => (- v)%Z end)) s3
      | _, _ => Parsed (PFloat (FLiteral (sign ++ ip ++ fp ++ ep))) s3
      end
  end.

Section Scanner.

Variable max_digits : nat.

(** [scan_once] with the loops of [_parse_object] and [_parse_array].
    [free] is the number of levels of recursion left, that is of containers
    that can still be entered.  [fuel] only bounds the number of steps;
    [json_loads] supplies more than any text needs.  The result
    [DecodeError] of the scanner itself stands for [StopIteration]. *)
Fixpoint scan_once (fuel free : nat) (s : str) {struct fuel}
  : presult pyval :=
  match fuel with
  | O => NoFuel
  | S fuel' =>
      match s with
      | [] => DecodeError                     (* expecting value *)
      | c :: s1 =>
          if (c =? 34)%N then pmap PStr (at_level free (scanstring s1))
          else if (c =? 123)%N then
            match free with
            | O => TooDeep InObject
            | S free' =>
                match skip_ws s1 with
                | c' :: s2 =>
                    if (c' =? 125)%N then Parsed (PDict []) s2
                    else object_members fuel' free' [] (skip_ws s1)
                | [] => raise_errmsg free'    (* expecting property name *)
                end
            end
          else if (c =? 91)%N then
            match free with
            | O => TooDeep InArray
            | S free' =>
                match skip_ws s1 with
                | c' :: s2 =>
                    if (c' =? 93)%N then Parsed (PList []) s2
                    else array_items fuel' free' [] (skip_ws s1)
                | [] => DecodeError           (* expecting value *)
                end
            end
          else if startswith (lit "null") s then Parsed PNone (skipn 4 s)
          else if startswith (lit "true") s
               then Parsed (PBool true) (skipn 4 s)
          else if startswith (lit "false") s
               then Parsed (PBool false) (skipn 5 s)
          else if startswith (lit "NaN") s
               then parse_constant free (PFloat FNaN) (skipn 3 s)
          else if startswith (lit "Infinity") s
               then parse_constant free (PFloat FInfinity) (skipn 8 s)
          else if startswith (lit "-Infinity") s
               then parse_constant free (PFloat FNegInfinity) (skipn 9 s)
          else match_number max_digits s
      end
  end

(** One [key : value] pair and what follows it; [d] is the dict built so
    far. *)
with object_members (fuel free : nat) (d : list (str * pyval)) (s : str)
  {struct fuel} : presult pyval :=
  match fuel with
  | O => NoFuel
  | S fuel' =>
      match s with
      | [] => raise_errmsg free               (* expecting property name *)
      | q :: s1 =>
          if (q =? 34)%N then
            match at_level free (scanstring s1) with
            | Parsed key s2 =>
                match skip_ws s2 with
                | colon :: s3 =>
                    if (colon =? 58)%N then
                      match scan_once fuel' free (skip_ws s3) with
                      | Parsed v s4 =>
                          let d' := dict_set key v d in
                          match skip_ws s4 with
                          | c :: s5 =>
                              if (c =? 125)%N then Parsed (PDict d') s5
                              else if (c =? 44)%N
                              then object_members fuel' free d' (skip_ws s5)
                              else raise_errmsg free (* expecting ',' *)
                          | [] => raise_errmsg free  (* expecting ',' *)
                          end
                      | DecodeError => DecodeError
                      | IntTooLong n => IntTooLong n
                      | TooDeep k => TooDeep k
                      | NoFuel => NoFuel
                      end
                    else raise_errmsg free    (* expecting ':' delimiter *)
                | [] => raise_errmsg free     (* expecting ':' delimiter *)
                end
            | DecodeError => DecodeError
            | IntTooLong n => IntTooLong n
            | TooDeep k => TooDeep k
            | NoFuel => NoFuel
            end
          else raise_errmsg free              (* expecting property name *)
      end
  end

(** One array item and what follows it; [acc] holds the items read so far,
    last first. *)
with array_items (fuel free : nat) (acc : list pyval) (s : str)
  {struct fuel} : presult pyval :=
  match fuel with
  | O => NoFuel
  | S fuel' =>
      match scan_once fuel' free s with
      | Parsed v s1 =>
          match skip_ws s1 with
          | c :: s2 =>
              if (c =? 93)%N then Parsed (PList (rev (v :: acc))) s2
              else if (c =? 44)%N
              then array_items fuel' free (v :: acc) (skip_ws s2)
              else raise_errmsg free          (* expecting ',' delimiter *)
          | [] => raise_errmsg free           (* expecting ',' delimiter *)
          end
      | DecodeError => DecodeError
      | IntTooLong n => IntTooLong n
      | TooDeep k => TooDeep k
      | NoFuel => NoFuel
      end
  end.

End Scanner.

(** The decimal numeral of [n]. *)
Definition decimal (n : nat) : str :=
  lit (NilEmpty.string_of_uint (Nat.to_uint n)).

(** [str(e)] of the [ValueError] raised by [int] on a long literal. *)
Definition int_limit_message (max_digits digits : nat) : str :=
  lit "Exceeds the limit (" ++ decimal max_digits ++
  lit " digits) for integer string conversion: value has " ++
  decimal digits ++
  lit " digits; use sys.set_int_max_str_digits() to increase the limit".

(** [str(e)] of the [RecursionError] raised at the site [k]. *)
Definition recursion_message (k : site) : str :=
  lit "maximum recursion depth exceeded" ++
  match k with
  | InObject => lit " while decoding a JSON object from a unicode string"
  | InArray => lit " while decoding a JSON array from a unicode string"
  | InCall => lit " while calling a Python object"
  | InFrame => []
  end.

(** [json.loads(s)] for a [str] argument: no byte order mark, one value
    between optional whitespace, nothing after it.  It returns the decoded
    object or raises [JSONDecodeError], [ValueError] (from [int]) or
    [RecursionError].  The errors raised by the Python code of [json.loads]
    itself (byte order mark, [Expecting value] on [StopIteration], extra
    data) come from frames above the scanner, which have the three levels
    of recursion it takes. *)
Definition json_loads (py : Interpreter) (s : str) : result pyval :=
  if startswith [65279%N] s then Raise JSONDecodeError
  else
    match scan_once (int_max_str_digits py) (S (2 * List.length s))
                    (2 + recursion_room py) (skip_ws s) with
    | Parsed v rest =>
        match skip_ws rest with
        | [] => Ok v
        | _ :: _ => Raise JSONDecodeError     (* extra data *)
        end
    | DecodeError => Raise JSONDecodeError
    | IntTooLong n =>
        Raise (ValueError (int_limit_message (int_max_str_digits py) n))
    | TooDeep k => Raise (RecursionError (recursion_message k))
    | NoFuel =>                        (* never reached: [scan_once_fuel] *)
        Raise (RecursionError (recursion_message InFrame))
    end.

End PyJson.
Import PyJson.


(* ===================================================================== *)
(** ** Exceptions, the AI service and the handler's monad *)
(* ===================================================================== *)

Module Runtime.

(** The Remote Upload Handle returned by [client.files.upload]; an instance
    of the library's file class, which is always truthy. *)
Record File := { name : str }.

(** The arguments of [client.models.generate_content]. *)
Record GenerateRequest := {
  model : str;
  text_part : str;
  file_part : File;
  config_system_instruction : str
}.

(** The AI service client: what each call answers.  [generate_content]
    answers with [response.text]; reading the text belongs to the call, so
    that an exception raised there is an exception of the call. *)
Record Client := {
  files_upload : list Byte.byte -> option str -> result File;
  models_generate_content : GenerateRequest -> result str;
  files_delete : str -> result unit
}.

(** The module [google.genai.types]: the constructors the handler calls to
    build the contents and the configuration of the generation request.
    Each returns normally or raises; [Content] is given the role and what
    its two parts were built from. *)
Record Types := {
  Part_from_text : str -> result unit;
  Part_from_file : File -> result unit;
  Content : str -> str -> File -> result unit;
  GenerateContentConfig : str -> result unit
}.

(** The calls made to the AI service, in the order they are made. *)
Inductive call :=
| CallUpload (file : list Byte.byte) (mime_type : option str)
| CallGenerate (req : GenerateRequest)
| CallDelete (file_name : str).

(** The upload of the request. *)
Record UploadFile := {
  content_type : option str;
  read : result (list Byte.byte)
}.

(** The process: the interpreter it runs on, the imported module [types],
    and the two module-level names set at process start. *)
Record Globals := {
  interpreter : Interpreter;
  types : Types;
  client : option Client;
  GEMINI_CONFIGURED : bool
}.

(** Section 2 of [main.py]: one attempt to build the client. *)
Definition startup (py : Interpreter) (t : Types) (attempt : result Client)
  : Globals :=
  match attempt with
  | Ok c =>
      {| interpreter := py; types := t;
         client := Some c; GEMINI_CONFIGURED := true |}
  | Raise _ =>
      {| interpreter := py; types := t;
         client := None; GEMINI_CONFIGURED := false |}
  end.

(** The state of one handler invocation. *)
Record state := {
  uploaded_file : option File;
  calls : list call
}.

Definition initial : state := {| uploaded_file := None; calls := [] |}.

(** Computations: a result or an exception, and the state in both cases. *)
Definition M (A : Type) : Type := state -> result A * state.

Definition ret {A : Type} (a : A) : M A := fun s => (Ok a, s).

Definition raise {A : Type} (e : exn) : M A := fun s => (Raise e, s).

Definition bind {A B : Type} (m : M A) (k : A -> M B) : M B :=
  fun s =>
    match m s with
    | (Ok a, s') => k a s'
    | (Raise e, s') => (Raise e, s')
    end.

Definition lift {A : Type} (r : result A) : M A := fun s => (r, s).

(** [try: m  except <classes> as e: h e] *)
Definition try_except {A : Type} (m : M A) (classes : exn -> bool)
  (h : exn -> M A) : M A :=
  fun s =>
    match m s with
    | (Ok a, s') => (Ok a, s')
    | (Raise e, s') => if classes e then h e s' else (Raise e, s')
    end.

(** [try: m  finally: f]: [f] runs on every exit of [m]; an exception
    raised by [f] replaces the pending return value or exception. *)
Definition try_finally {A : Type} (m : M A) (f : M unit) : M A :=
  fun s =>
    let (r, s') := m s in
    match f s' with
    | (Ok _, s'') => (r, s'')
    | (Raise e, s'') => (Raise e, s'')
    end.

Definition get_uploaded_file : M (option File) :=
  fun s => (Ok (uploaded_file s), s).

Definition set_uploaded_file (f : option File) : M unit :=
  fun s => (Ok tt, {| uploaded_file := f; calls := calls s |}).

(** A call to the service is logged, then answered. *)
Definition service {A : Type} (c : call) (answer : result A) : M A :=
  fun s =>
    (answer, {| uploaded_file := uploaded_file s; calls := calls s ++ [c] |}).

(** Reading the global [client]; an unbound name raises [NameError]. *)
Definition the_client (g : Globals) : M Client :=
  match client g with
  | Some c => ret c
  | None => raise (NameError (lit "name 'client' is not defined"))
  end.

End Runtime.
Import Runtime.

Declare Scope py_scope.
Delimit Scope py_scope with py.
Notation "x <- m ;; k" := (bind m (fun x => k))
  (at level 61, m at next level, right associativity) : py_scope.
Notation "m ;; k" := (bind m (fun _ => k))
  (at level 61, right associativity) : py_scope.
Local Open Scope py_scope.

(* ===================================================================== *)
(** ** The endpoint [/api/ats-optimize] *)
(* ===================================================================== *)

Module Handler.

(** The Analysis Result: the dict the handler returns.  The two fields
    taken from the model's answer hold whatever Python object was found
    there. *)
Record AnalysisResult := {
  success : bool;
  matchScore : pyval;
  suggestions : pyval
}.

Definition pdf_prefix : str := lit "application/pdf".
Definition docx_prefix : str :=
  lit "application/vnd.openxmlformats-officedocument.wordprocessingml".

(** [file_mime_type and not file_mime_type.startswith((..., ...))]: [None]
    and the empty string are falsy. *)
Definition invalid_file_type (file_mime_type : option str) : bool :=
  match file_mime_type with
  | None => false
  | Some [] => false
  | Some t => negb (startswith_any [pdf_prefix; docx_prefix] t)
  end.

Definition invalid_file_type_detail : str :=
  lit "Invalid file type. Please upload a PDF or DOCX.".

(** The suggestions of the mock result: a warning sign (the code points
    9888 and 65039) and the fixed text. *)
Definition mock_suggestions : str :=
  [9888; 65039]%N ++
  lit " MOCK DATA: Missing 'DevOps' and 'Kubernetes'. Add these to your experience section. (API Key not configured.)".

Definition mock_result : AnalysisResult :=
  {| success := true;
     matchScore := PInt 75;
     suggestions := PStr mock_suggestions |}.

(** The fixed system instruction of step 3. *)
Definition system_instruction : str :=
  lit "You are an expert Applicant Tracking System (ATS) optimization engine. " ++
  lit "Analyze the provided Resume file against the Job Description. " ++
  lit "Your output MUST be a single JSON object with the keys 'matchScore' (integer percentage) and 'suggestions' (string with detailed, actionable bullet points for improvement)." ++
  lit "Do NOT include any preamble or extra text outside the JSON object.".

(** The user prompt of step 4, an f-string over the two form fields. *)
Definition prompt (job_title job_description : str) : str :=
  lit "Analyze this resume against the following job description for the role: " ++
  job_title ++ [10; 10]%N ++
  lit "**Job Description:**" ++ [10]%N ++ job_description ++ [10; 10]%N ++
  lit "Provide the ATS Match Score and detailed, actionable suggestions for improving the resume's alignment with the job description. " ++
  lit "Your response must be a single JSON object.".

(** The arguments of the one generation request: the model, the prompt
    and the uploaded file as the two parts of the user turn, the system
    instruction. *)
Definition generate_request (job_title job_description : str) (f : File)
  : GenerateRequest :=
  {| model := lit "gemini-2.5-flash";
     text_part := prompt job_title job_description;
     file_part := f;
     config_system_instruction := system_instruction |}.

Definition fence_json : str := lit "```json".
Definition fence : str := lit "```".

(** [response.text.strip().replace(fence_json, empty).replace(fence, empty)] *)
Definition strip_fences (text : str) : str :=
  replace fence [] (replace fence_json [] (strip text)).

(** The arguments of [generate_content] are evaluated before the call:
    the two parts, the content that holds them, the configuration.  The
    first constructor that raises ends the evaluation. *)
Definition build_request (t : Types) (req : GenerateRequest) : result unit :=
  match Part_from_text t (text_part req) with
  | Raise e => Raise e
  | Ok _ =>
      match Part_from_file t (file_part req) with
      | Raise e => Raise e
      | Ok _ =>
          match Content t (lit "user") (text_part req) (file_part req) with
          | Raise e => Raise e
          | Ok _ => GenerateContentConfig t (config_system_instruction req)
          end
      end
  end.

(** [json.loads(json_text)] as a computation. *)
Definition loads (py : Interpreter) (json_text : str) : M pyval :=
  lift (json_loads py json_text).

(** [ai_result.get(key, default)]; only a dict has the method. *)
Definition get (ai_result : pyval) (key : str) (default : pyval) : M pyval :=
  match ai_result with
  | PDict d => ret (dict_get d key default)
  | v => raise (AttributeError
                  (lit "'" ++ type_name v ++
                   lit "' object has no attribute 'get'"))
  end.

(** [isinstance(v, int)]: [bool] is a subclass of [int]. *)
Definition isinstance_int (v : pyval) : bool :=
  match v with
  | PInt _ | PBool _ => true
  | _ => false
  end.

(** The integer an instance of [int] compares as. *)
Definition int_value (v : pyval) : Z :=
  match v with
  | PInt z => z
  | PBool true => 1
  | _ => 0
  end.

(** [not isinstance(match_score, int) or match_score < 0 or
    match_score > 100] *)
Definition score_invalid (match_score : pyval) : bool :=
  negb (isinstance_int match_score)
  || (int_value match_score <? 0)%Z
  || (int_value match_score >? 100)%Z.

Definition no_suggestions : str :=
  lit "No detailed suggestions provided by AI.".

Definition parse_error_marker : str :=
  lit "Error: Could not parse structured output from AI. Raw response: ".

(** The suggestions of the degraded result: the marker, the first 200
    characters of the raw answer, an ellipsis. *)
Definition parse_error_suggestions (text : str) : str :=
  parse_error_marker ++ slice_to 200 text ++ lit "...".

(** Step 6 of the handler: the inner [try]/[except] that turns the answer
    of the model into a score and suggestions. *)
Definition parse_response (py : Interpreter) (text : str)
  : M (pyval * pyval) :=
  try_except
    (let json_text := strip_fences text in
     ai_result <- loads py json_text ;;
     match_score <- get ai_result (lit "matchScore") (PInt 0) ;;
     suggestions <- get ai_result (lit "suggestions") (PStr no_suggestions) ;;
     if score_invalid match_score
     then raise (ValueError (lit "Match score is invalid."))
     else ret (match_score, suggestions))
    is_JSONDecodeError_or_ValueError
    (fun e => ret (PInt 50, PStr (parse_error_suggestions text))).

Definition service_error_detail (e : exn) : str :=
  lit "AI Service Error: Failed to process file. Check API keys and Vercel logs. Error: " ++
  exn_str e.

(** The [finally] clause: delete the upload if one was made. *)
Definition cleanup (g : Globals) : M unit :=
  uf <- get_uploaded_file ;;
  match uf with
  | Some f =>
      c <- the_client g ;;
      service (CallDelete (name f)) (files_delete c (name f))
  | None => ret tt
  end.

(** [ats_optimize_resume] *)
Definition ats_optimize_resume (g : Globals)
  (job_description job_title : str) (resume_file : UploadFile)
  : M AnalysisResult :=
  let file_mime_type := content_type resume_file in
  if invalid_file_type file_mime_type
  then raise (HTTPException 400 invalid_file_type_detail)
  else if negb (GEMINI_CONFIGURED g)
  then ret mock_result
  else
    set_uploaded_file None ;;
    try_finally
      (try_except
         (file_bytes <- lift (read resume_file) ;;
          c <- the_client g ;;
          f <- service (CallUpload file_bytes file_mime_type)
                       (files_upload c file_bytes file_mime_type) ;;
          set_uploaded_file (Some f) ;;
          let req := generate_request job_title job_description f in
          lift (build_request (types g) req) ;;
          text <- service (CallGenerate req)
                          (models_generate_content c req) ;;
          ms <- parse_response (interpreter g) text ;;
          ret {| success := true;
                 matchScore := fst ms;
                 suggestions := snd ms |})
         is_Exception
         (fun e => raise (HTTPException 500 (service_error_detail e))))
      (cleanup g).

(** Running the handler on a fresh invocation: what it returns or raises,
    and the calls it made to the AI service. *)
Definition run (g : Globals) (job_description job_title : str)
  (resume_file : UploadFile) : result AnalysisResult * list call :=
  let (r, s) :=
    ats_optimize_resume g job_description job_title resume_file initial in
  (r, calls s).

End Handler.
Import Handler.

(* ===================================================================== *)
(** ** Vocabulary of the properties *)
(* ===================================================================== *)

(** The names passed to [client.files.delete], in call order. *)
Fixpoint deletions (cs : list call) : list str :=
  match cs with
  | [] => []
  | CallDelete n :: cs' => n :: deletions cs'
  | _ :: cs' => deletions cs'
  end.

(** A match score of the Analysis Result: an integer from 0 to 100. *)
Definition is_score (v : pyval) : Prop :=
  exists z : Z, v = PInt z /\ (0 <= z <= 100)%Z.

(** [x] occurs in [t] as a run of consecutive characters. *)
Definition infix (x t : str) : Prop :=
  exists a b : str, t = a ++ x ++ b.

(** [r] is what remains of [s] after at least one character. *)
Definition strict_suffix (r s : str) : Prop :=
  exists a : str, a <> [] /\ s = a ++ r.

Definition backtick : N := 96%N.

(** [s] is an end of [t]. *)
Definition suffix (s t : str) : Prop := exists a : str, t = a ++ s.

(** The JSON escape that decodes to a backtick. *)
Definition escaped_backtick : str := lit "\u0060".

(** No string value of the dict [d] holds a fence marker. *)
Definition strs_clean (d : list (str * pyval)) : Prop :=
  forall k x, dict_lookup k d = Some (PStr x) -> contains fence x = false.

(** What is left after a decoded value is a strict end of the text. *)
Definition rest_ok (m fuel : nat) : Prop :=
  (forall depth s v r,
     scan_once m fuel depth s = Parsed v r -> strict_suffix r s) /\
  (forall depth d s v r,
     object_members m fuel depth d s = Parsed v r -> strict_suffix r s) /\
  (forall depth acc s v r,
     array_items m fuel depth acc s = Parsed v r -> strict_suffix r s).

(** A budget of steps above twice the length of the text is never
    exhausted. *)
Definition fuel_ok (m fuel : nat) : Prop :=
  (forall depth s,
     2 * List.length s < fuel -> scan_once m fuel depth s <> NoFuel) /\
  (forall depth d s, 2 * List.length s + 1 < fuel ->
     object_members m fuel depth d s <> NoFuel) /\
  (forall depth acc s, 2 * List.length s + 1 < fuel ->
     array_items m fuel depth acc s <> NoFuel).

(** The fields of the result when the decoded object is [d]: what the
    inner [try] of step 6 leaves in [match_score] and [suggestions]. *)
Definition fields_of (text : str) (d : list (str * pyval)) : pyval * pyval :=
  let match_score := dict_get d (lit "matchScore") (PInt 0) in
  if score_invalid match_score
  then (PInt 50, PStr (parse_error_suggestions text))
  else (match_score, dict_get d (lit "suggestions") (PStr no_suggestions)).

(** The degraded result of a parse failure. *)
Definition degraded_result (text : str) : AnalysisResult :=
  {| success := true;
     matchScore := PInt 50;
     suggestions := PStr (parse_error_suggestions text) |}.

(** How the [finally] clause settles the pending outcome of the [try]
    block: an exception of the deletion call replaces it. *)
Definition settle {A : Type} (deleted : result unit) (pending : result A)
  : result A :=
  match deleted with
  | Ok _ => pending
  | Raise e => Raise e
  end.

(** The 500 response built by the outer [except]. *)
Definition service_error {A : Type} (e : exn) : result A :=
  Raise (HTTPException 500 (service_error_detail e)).

(** The generation step of a request: the request is built, then the call
    is made.  It gives the text of the answer, or the exception raised by a
    constructor of [types] or by the call. *)
Definition generation (g : Globals) (c : Client) (req : GenerateRequest)
  : result str :=
  match build_request (types g) req with
  | Ok _ => models_generate_content c req
  | Raise e => Raise e
  end.

(** What the [try] block leaves pending once the upload has been made. *)
Definition pending_outcome (py : Interpreter) (answer : result str)
  : result AnalysisResult :=
  match answer with
  | Ok text =>
      match fst (parse_response py text initial) with
      | Ok ms => Ok {| success := true;
                       matchScore := fst ms;
                       suggestions := snd ms |}
      | Raise e => service_error e
      end
  | Raise e => service_error e
  end.

(** The request reached the upload call and the call returned the handle
    [h]: the media type was accepted, the backend is configured with the
    client [c], the resume was read as [file_bytes]. *)
Definition upload_succeeded (g : Globals) (resume_file : UploadFile)
  (c : Client) (file_bytes : list Byte.byte) (h : File) : Prop :=
  invalid_file_type (content_type resume_file) = false /\
  GEMINI_CONFIGURED g = true /\
  client g = Some c /\
  read resume_file = Ok file_bytes /\
  files_upload c file_bytes (content_type resume_file) = Ok h.

(** A Remote Upload Handle [h] was created during the request. *)
Definition handle_created (g : Globals) (resume_file : UploadFile) (h : File)
  : Prop :=
  exists (c : Client) (file_bytes : list Byte.byte),
    upload_succeeded g resume_file c file_bytes h.

(** A value that is neither an [int] nor a [bool]. *)
Definition not_int_nor_bool (v : pyval) : Prop := isinstance_int v = false.

(** An integer outside 0..100. *)
Definition out_of_range (v : pyval) : Prop :=
  exists z : Z, v = PInt z /\ (z < 0 \/ 100 < z)%Z.

(** An interpreter for the examples: the limits of CPython 3.11 with its
    default settings, seen from a shallow call stack. *)
Definition sample_interpreter : Interpreter :=
  {| recursion_room := 992; int_max_str_digits := 4300 |}.

(** The [types] module of the examples: every constructor returns. *)
Definition sample_types : Types :=
  {| Part_from_text := fun _ => Ok tt;
     Part_from_file := fun _ => Ok tt;
     Content := fun _ _ _ => Ok tt;
     GenerateContentConfig := fun _ => Ok tt |}.

(** A [types] module whose [Part.from_text] raises [e]. *)
Definition failing_types (e : exn) : Types :=
  {| Part_from_text := fun _ => Raise e;
     Part_from_file := fun _ => Ok tt;
     Content := fun _ _ _ => Ok tt;
     GenerateContentConfig := fun _ => Ok tt |}.

(** A service for the examples: the upload returns [sample_file], the
    generation and deletion calls answer as given. *)
Definition sample_file : File := {| name := lit "files/r3sum3" |}.

Definition sample_client (answer : result str) (deleted : result unit)
  : Client :=
  {| files_upload := fun _ _ => Ok sample_file;
     models_generate_content := fun _ => answer;
     files_delete := fun _ => deleted |}.

Definition sample_globals (answer : result str) (deleted : result unit)
  : Globals :=
  startup sample_interpreter sample_types
          (Ok (sample_client answer deleted)).

Definition sample_pdf : UploadFile :=
  {| content_type := Some (lit "application/pdf");
     read := Ok [Byte.x25; Byte.x50; Byte.x44; Byte.x46] |}.

Definition sample_request : GenerateRequest :=
  generate_request (lit "SRE") (lit "Run the clusters.") sample_file.

(** The calls of a request that got as far as the upload. *)
Definition sample_calls : list call :=
  [CallUpload [Byte.x25; Byte.x50; Byte.x44; Byte.x46]
              (Some (lit "application/pdf"));
   CallGenerate sample_request;
   CallDelete (lit "files/r3sum3")].

(** [run] on the sample request. *)
Definition sample_run (answer : result str) (deleted : result unit)
  : result AnalysisResult * list call :=
  run (sample_globals answer deleted) (lit "Run the clusters.") (lit "SRE")
      sample_pdf.

(** The three calls of a request whose upload succeeded and whose
    generation request could be built. *)
Definition live_calls (file_bytes : list Byte.byte) (mime : option str)
  (req : GenerateRequest) (h : File) : list call :=
  [CallUpload file_bytes mime; CallGenerate req; CallDelete (name h)].

(** The calls of a request whose upload succeeded: the generation call is
    made only when the request could be built. *)
Definition calls_after_upload (g : Globals) (file_bytes : list Byte.byte)
  (mime : option str) (req : GenerateRequest) (h : File) : list call :=
  match build_request (types g) req with
  | Ok _ => live_calls file_bytes mime req h
  | Raise _ => [CallUpload file_bytes mime; CallDelete (name h)]
  end.

(** Uploads with a rejected media type and with no declared type. *)
Definition sample_png : UploadFile :=
  {| content_type := Some (lit "image/png");
     read := Ok [Byte.x89; Byte.x50; Byte.x4e; Byte.x47] |}.

Definition sample_untyped : UploadFile :=
  {| content_type := None;
     read := Ok [Byte.x25; Byte.x50; Byte.x44; Byte.x46] |}.

(** An upload whose declared media type is the empty string. *)
Definition sample_empty_type : UploadFile :=
  {| content_type := Some [];
     read := Ok [Byte.x25; Byte.x50; Byte.x44; Byte.x46] |}.

(** The well-formed answer of the model, bare and between fence markers. *)
Definition well_formed_answer : str :=
  qlit "{'matchScore': 88, 'suggestions': 'add X'}".

Definition well_formed_variants : list str :=
  [ well_formed_answer;
    fence_json ++ [10%N] ++ well_formed_answer ++ [10%N] ++ fence;
    fence ++ [10%N] ++ well_formed_answer ++ [10%N] ++ fence;
    fence_json ++ well_formed_answer ++ fence;
    fence ++ well_formed_answer ++ fence ].

Definition well_formed_result : AnalysisResult :=
  {| success := true;
     matchScore := PInt 88;
     suggestions := PStr (lit "add X") |}.

(** Answers of the model used in the examples: backticks written as JSON
    escapes, backticks written literally, a boolean score, a score out of
    range, and a text that is not JSON. *)
Definition escaped_fence_answer : str :=
  qlit "{'matchScore': 5, 'suggestions': '\u0060\u0060\u0060json'}".

Definition literal_fence_answer : str :=
  qlit "{'matchScore': 5, 'suggestions': 'use ```code``` here'}".

Definition boolean_score_answer : str :=
  qlit "{'matchScore': true, 'suggestions': 'ok'}".

Definition out_of_range_answer : str :=
  qlit "{'matchScore': 150, 'suggestions': '...'}".

Definition unparsable_answer : str := lit "Sorry, I cannot read this file.".

(** Errors of the AI service used in the examples. *)
Definition quota_error : exn := ServiceError (lit "429 quota exceeded").

Definition cleanup_error : exn := ServiceError (lit "503 unavailable").

(** The member loop builds a dict, the item loop a list. *)
Definition kinds_ok (m fuel : nat) : Prop :=
  (forall depth d s v r, object_members m fuel depth d s = Parsed v r ->
     exists d', v = PDict d') /\
  (forall depth acc s v r, array_items m fuel depth acc s = Parsed v r ->
     exists l, v = PList l).

(** The characters that can start a JSON value for [json.loads]: a digit,
    the quotation mark, a brace, a bracket, and the first letters of
    [null], [true], [false], [NaN], [Infinity] and of a negative number. *)
Definition json_start (c : N) : bool :=
  is_digit c ||
  existsb (N.eqb c) [34; 123; 91; 110; 116; 102; 78; 73; 45]%N.

(** A text made of the whitespace [str.strip] removes. *)
Definition all_space (w : str) : bool := forallb isspace w.

(** The error of calling [get] on a value that is not a dict. *)
Definition attribute_error (v : pyval) : exn :=
  AttributeError
    (lit "'" ++ type_name v ++ lit "' object has no attribute 'get'").

(** More uploads and answers for the examples: an upload that cannot be
    read, a PDF type with a parameter, suggestions given as a list, an
    answer in plain prose. *)
Definition disk_error : exn := ServiceError (lit "spooled file closed").

Definition sample_unreadable : UploadFile :=
  {| content_type := Some (lit "application/pdf");
     read := Raise disk_error |}.

Definition sample_pdf_with_parameter : UploadFile :=
  {| content_type := Some (lit "application/pdf; qs=0.001");
     read := Ok [Byte.x25; Byte.x50; Byte.x44; Byte.x46] |}.

Definition list_suggestions_answer : str :=
  qlit "{'matchScore': 61, 'suggestions': ['Add Kubernetes', 'Quantify results']}".

Definition prose_answer : str :=
  lit "Here is the analysis you asked for: 88 percent.".

(** Answers that meet the limits of the interpreter: 1200 opening
    brackets, and an object with an integer of 4301 digits. *)
Definition deep_answer : str := repeat 91%N 1200.

Definition long_integer_answer : str :=
  qlit "{'matchScore': 5, 'suggestions': " ++ repeat 49%N 4301 ++ lit "}".

(** Answers with escapes: a line feed written as an escape next to fences
    written literally, and backtick escapes that appear only once the
    fences written inside them are removed. *)
Definition newline_fence_answer : str :=
  qlit "{'matchScore': 5, 'suggestions': 'use ```code```\nhere'}".

Definition split_escape_answer : str :=
  qlit "{'matchScore': 5, 'suggestions': '\u00```60\u00```60\u00```60'}".

(** An error of a constructor of [types]. *)
Definition constructor_error : exn :=
  ServiceError (lit "Part.from_text() takes 1 positional argument but 2 were given").

Unset Implicit Arguments.

(* ===================================================================== *)
(** ** Facts about the string operations *)
(* ===================================================================== *)

Section StringFacts.

Lemma startswith_app (p s : str) : startswith p (p ++ s) = true.
Proof.
  induction p as [|a p IH]; simpl; [reflexivity|].
  now rewrite N.eqb_refl, IH.
Qed.

Lemma startswith_split (p s : str) :
  startswith p s = true -> exists b, s = p ++ b.
Proof.
  revert s; induction p as [|a p IH]; intros s H.
  - now exists s.
  - destruct s as [|c s]; simpl in H; [discriminate|].
    apply andb_true_iff in H as [Hc Hp].
    apply N.eqb_eq in Hc; subst c.
    destruct (IH _ Hp) as [b ->]. now exists b.
Qed.

Lemma startswith_prefix (p q s : str) :
  startswith (p ++ q) s = true -> startswith p s = true.
Proof.
  intros H. destruct (startswith_split _ _ H) as [b ->].
  rewrite <- app_assoc. apply startswith_app.
Qed.

Lemma contains_unfold (x t : str) :
  contains x t =
  startswith x t || match t with [] => false | _ :: t' => contains x t' end.
Proof. destruct t; reflexivity. Qed.

Lemma contains_infix (x t : str) : contains x t = true <-> infix x t.
Proof.
  split.
  - induction t as [|c t IH]; simpl; intros H.
    + rewrite orb_false_r in H.
      destruct (startswith_split _ _ H) as [b Hb]. now exists [], b.
    + apply orb_true_iff in H as [H|H].
      * destruct (startswith_split _ _ H) as [b Hb]. now exists [], b.
      * destruct (IH H) as (a & b & ->). now exists (c :: a), b.
  - intros (a & b & ->). induction a as [|c a IH]; simpl.
    + now rewrite contains_unfold, startswith_app.
    + now rewrite IH, orb_true_r.
Qed.

End StringFacts.

Section ReplaceFacts.

Variables old new : str.

Lemma replace_from_skipn (k : nat) (s : str) :
  replace_from old new k s = replace_from old new 0 (skipn k s).
Proof.
  revert k; induction s as [|c s IH]; intros [|k]; try reflexivity.
  cbn [replace_from skipn]. apply IH.
Qed.

Lemma replace_cons (c : N) (s : str) :
  replace old new (c :: s) =
  if startswith old (c :: s)
  then new ++ replace old new (skipn (List.length old - 1) s)
  else c :: replace old new s.
Proof.
  unfold replace; cbn [replace_from].
  destruct (startswith old (c :: s)); [|reflexivity].
  now rewrite replace_from_skipn.
Qed.

End ReplaceFacts.

Section FenceFacts.

Let bt2 : str := [backtick; backtick].

Lemma fence_eq : fence = backtick :: bt2.
Proof. reflexivity. Qed.

Lemma fence_json_eq : fence_json = fence ++ lit "json".
Proof. reflexivity. Qed.

Lemma replace_fence_hit (s : str) :
  replace fence [] (fence ++ s) = replace fence [] s.
Proof.
  rewrite fence_eq at 2. cbn [app bt2].
  rewrite replace_cons.
  change (backtick :: backtick :: backtick :: s) with (fence ++ s).
  now rewrite startswith_app.
Qed.

Lemma replace_fence_miss (c : N) (s : str) :
  startswith fence (c :: s) = false ->
  replace fence [] (c :: s) = c :: replace fence [] s.
Proof. intros H. now rewrite replace_cons, H. Qed.

Lemma startswith_fence_cons (c : N) (s : str) :
  startswith fence (c :: s) = (backtick =? c)%N && startswith bt2 s.
Proof. reflexivity. Qed.

(** Deleting the fences cannot bring two backticks to the front of a text
    that did not start with two. *)
Lemma replace_fence_front (s : str) :
  startswith bt2 s = false -> startswith bt2 (replace fence [] s) = false.
Proof.
  intros H.
  destruct s as [|c1 s]; [reflexivity|].
  assert (M1 : startswith fence (c1 :: s) = false).
  { rewrite startswith_fence_cons.
    destruct (backtick =? c1)%N eqn:E1; [|reflexivity].
    destruct s as [|c2 s]; [reflexivity|].
    cbn [startswith bt2 andb] in H |- *. rewrite E1 in H. cbn [andb] in H.
    destruct (backtick =? c2)%N; [discriminate|reflexivity]. }
  rewrite (replace_fence_miss _ _ M1).
  cbn [startswith bt2] in H |- *.
  destruct (backtick =? c1)%N eqn:E1; [|reflexivity].
  cbn [andb] in H |- *.
  destruct s as [|c2 s]; [reflexivity|].
  destruct (backtick =? c2)%N eqn:E2; [discriminate|].
  assert (M2 : startswith fence (c2 :: s) = false).
  { rewrite startswith_fence_cons. now rewrite E2. }
  rewrite (replace_fence_miss _ _ M2). cbn [startswith]. now rewrite E2.
Qed.

Lemma replace_fence_clean_upto (n : nat) (s : str) :
  List.length s <= n -> contains fence (replace fence [] s) = false.
Proof.
  revert s; induction n as [|n IH]; intros s Hn.
  - destruct s; [reflexivity|simpl in Hn; lia].
  - destruct s as [|c s]; [reflexivity|].
    destruct (startswith fence (c :: s)) eqn:Hs.
    + destruct (startswith_split _ _ Hs) as [b Hb]. rewrite Hb.
      rewrite replace_fence_hit. apply IH.
      apply (f_equal (@List.length N)) in Hb.
      rewrite length_app in Hb. simpl in Hb, Hn. lia.
    + rewrite (replace_fence_miss _ _ Hs), contains_unfold.
      rewrite (IH s) by (simpl in Hn; lia).
      rewrite orb_false_r, startswith_fence_cons.
      rewrite startswith_fence_cons in Hs.
      destruct (backtick =? c)%N; [|reflexivity].
      cbn [andb] in Hs |- *. now apply replace_fence_front.
Qed.

(** After [.replace(fence, empty)] no fence is left. *)
Lemma replace_fence_clean (s : str) :
  contains fence (replace fence [] s) = false.
Proof. now apply (replace_fence_clean_upto (List.length s)). Qed.

Lemma contains_fence_json (s : str) :
  contains fence_json s = true -> contains fence s = true.
Proof.
  rewrite !contains_infix, fence_json_eq.
  intros (a & b & ->). exists a, (lit "json" ++ b).
  now rewrite <- app_assoc.
Qed.

(** The text handed to [json.loads] holds neither fence marker. *)
Lemma strip_fences_clean (text : str) :
  contains fence (strip_fences text) = false /\
  contains fence_json (strip_fences text) = false.
Proof.
  assert (H : contains fence (strip_fences text) = false)
    by apply replace_fence_clean.
  split; [exact H|].
  destruct (contains fence_json (strip_fences text)) eqn:E; [|reflexivity].
  apply contains_fence_json in E. congruence.
Qed.

End FenceFacts.

(* ===================================================================== *)
(** ** Facts about the decoder *)
(* ===================================================================== *)

Section OutcomeFacts.

Lemma raise_errmsg_parsed {A} (free : nat) (v : A) (r : str) :
  raise_errmsg free <> Parsed v r.
Proof. destruct free as [|[|[|f]]]; discriminate. Qed.

Lemma raise_errmsg_fuel {A} (free : nat) : @raise_errmsg A free <> NoFuel.
Proof. destruct free as [|[|[|f]]]; discriminate. Qed.

Lemma at_level_parsed {A} (free : nat) (p : presult A) (v : A) (r : str) :
  at_level free p = Parsed v r -> p = Parsed v r.
Proof.
  destruct p; cbn [at_level]; try congruence.
  intros H. now apply raise_errmsg_parsed in H.
Qed.

Lemma at_level_fuel {A} (free : nat) (p : presult A) :
  at_level free p = NoFuel -> p = NoFuel.
Proof.
  destruct p; cbn [at_level]; try congruence.
  intros H. now apply raise_errmsg_fuel in H.
Qed.

End OutcomeFacts.

(** Case analysis on the next test or match of a hypothesis. *)
Ltac split_in H :=
  match type of H with
  | context [if ?b then _ else _] => destruct b eqn:?
  | context [match ?x with _ => _ end] => destruct x eqn:?
  end;
  try discriminate H;
  try (now apply raise_errmsg_parsed in H);
  try (now apply raise_errmsg_fuel in H).

Section DecoderFacts.

Lemma strict_suffix_length (r s : str) :
  strict_suffix r s -> List.length r < List.length s.
Proof.
  intros (a & Ha & ->). rewrite length_app.
  destruct a; [congruence|simpl; lia].
Qed.

Lemma strict_suffix_cons (c : N) (s : str) : strict_suffix s (c :: s).
Proof. exists [c]. split; [discriminate|reflexivity]. Qed.

Lemma strict_suffix_app (a r s : str) :
  strict_suffix r s -> strict_suffix r (a ++ s).
Proof.
  intros (b & Hb & ->). exists (a ++ b). split.
  - destruct a; [exact Hb|discriminate].
  - now rewrite app_assoc.
Qed.

Lemma strict_suffix_step (c : N) (r s : str) :
  strict_suffix r s -> strict_suffix r (c :: s).
Proof. apply (strict_suffix_app [c]). Qed.

Lemma strict_suffix_trans (r s t : str) :
  strict_suffix r s -> strict_suffix s t -> strict_suffix r t.
Proof. intros H (b & _ & ->). now apply strict_suffix_app. Qed.

Lemma skip_ws_split (s : str) : exists a, s = a ++ skip_ws s.
Proof.
  induction s as [|c s [a IH]]; [now exists []|].
  cbn [skip_ws]. destruct (is_ws c).
  - exists (c :: a). cbn [app]. now rewrite <- IH.
  - now exists [].
Qed.

Lemma strict_suffix_skip_ws (r s : str) :
  strict_suffix r (skip_ws s) -> strict_suffix r s.
Proof.
  destruct (skip_ws_split s) as [a Ha]. intros H.
  rewrite Ha. now apply strict_suffix_app.
Qed.

Lemma skip_ws_length (s : str) : List.length (skip_ws s) <= List.length s.
Proof.
  destruct (skip_ws_split s) as [a Ha]. rewrite Ha at 2.
  rewrite length_app. lia.
Qed.

Lemma pcons_parsed (c : N) (p : presult str) (v r : str) :
  pcons c p = Parsed v r -> exists v', p = Parsed v' r /\ v = c :: v'.
Proof.
  destruct p; cbn [pcons pmap]; intros H; inversion H; subst; eauto.
Qed.

Lemma pcons_fuel (c : N) (p : presult str) :
  pcons c p = NoFuel -> p = NoFuel.
Proof. destruct p; cbn [pcons pmap]; congruence. Qed.

Local Ltac peel H := first [exact H | apply strict_suffix_step; peel H].

Lemma scanstring_rest_upto (n : nat) (s v r : str) :
  List.length s <= n -> scanstring s = Parsed v r -> strict_suffix r s.
Proof.
  revert s v r; induction n as [|n IH]; intros s v r Hn H.
  - destruct s; [discriminate|simpl in Hn; lia].
  - destruct s as [|c s1]; [discriminate|].
    cbn [scanstring] in H.
    repeat split_in H;
      try (inversion H; subst; apply strict_suffix_cons);
      apply pcons_parsed in H as (v' & H & _);
      apply IH in H; cbn [List.length] in Hn |- *; try lia;
      peel H.
Qed.

(** A string literal ends strictly inside the text. *)
Lemma scanstring_rest (s v r : str) :
  scanstring s = Parsed v r -> strict_suffix r s.
Proof. now apply (scanstring_rest_upto (List.length s)). Qed.

Lemma scanstring_fuel_upto (n : nat) (s : str) :
  List.length s <= n -> scanstring s <> NoFuel.
Proof.
  revert s; induction n as [|n IH]; intros s Hn H.
  - destruct s; [discriminate|simpl in Hn; lia].
  - destruct s as [|c s1]; [discriminate|].
    cbn [scanstring] in H.
    repeat split_in H;
      apply pcons_fuel in H; revert H; apply IH;
      cbn [List.length] in Hn |- *; lia.
Qed.

Lemma scanstring_fuel (s : str) : scanstring s <> NoFuel.
Proof. now apply (scanstring_fuel_upto (List.length s)). Qed.


Lemma span_digits_split (s ds r : str) :
  span_digits s = (ds, r) -> s = ds ++ r.
Proof.
  revert ds r; induction s as [|c s IH]; intros ds r H; cbn [span_digits] in H.
  - now inversion H.
  - destruct (is_digit c).
    + destruct (span_digits s) as [ds' r'] eqn:E. inversion H; subst.
      cbn [app]. f_equal. now apply IH.
    + now inversion H.
Qed.

Lemma match_integer_split (s ip r : str) :
  match_integer s = Some (ip, r) -> s = ip ++ r /\ ip <> [].
Proof.
  destruct s as [|c s]; cbn [match_integer]; [discriminate|].
  destruct (c =? 48)%N.
  - intros H; inversion H; subst. split; [reflexivity|discriminate].
  - destruct (is_digit c); [|discriminate].
    destruct (span_digits s) as [ds r'] eqn:E. intros H; inversion H; subst.
    apply span_digits_split in E. subst s. split; [reflexivity|discriminate].
Qed.

Lemma match_frac_split (s fp r : str) :
  match_frac s = (fp, r) -> s = fp ++ r.
Proof.
  unfold match_frac. intros H.
  repeat split_in H; inversion H; subst; try reflexivity.
  match goal with E : span_digits _ = _ |- _ =>
    apply span_digits_split in E; now subst end.
Qed.

Lemma match_exp_split (s ep r : str) :
  match_exp s = (ep, r) -> s = ep ++ r.
Proof.
  unfold match_exp. intros H.
  repeat split_in H; inversion H; subst; try reflexivity;
  match goal with E : span_digits _ = _ |- _ =>
    apply span_digits_split in E; now subst end.
Qed.

Lemma match_number_split (m : nat) (s : str) (v : pyval) (r : str) :
  match_number m s = Parsed v r ->
  strict_suffix r s /\ ((exists z, v = PInt z) \/ (exists f, v = PFloat f)).
Proof.
  unfold match_number. intros H.
  destruct (match s with
            | [] => ([], s)
            | c :: s' => if (c =? 45)%N then ([c], s') else ([], s)
            end) as [sign s0] eqn:Es.
  assert (Hs : s = sign ++ s0).
  { destruct s as [|c s']; [now inversion Es|].
    destruct (c =? 45)%N; now inversion Es. }
  destruct (match_integer s0) as [[ip s1]|] eqn:Ei; [|discriminate].
  destruct (match_frac s1) as [fp s2] eqn:Ef.
  destruct (match_exp s2) as [ep s3] eqn:Ee.
  apply match_integer_split in Ei as [Ei Hip].
  apply match_frac_split in Ef. apply match_exp_split in Ee.
  assert (Hr : strict_suffix s3 s).
  { subst s s0 s1 s2. apply strict_suffix_app.
    exists (ip ++ fp ++ ep). split.
    - destruct ip; [congruence|discriminate].
    - now rewrite <- !app_assoc. }
  destruct fp, ep;
    try (destruct (int_too_long m (List.length ip)); [discriminate H|]);
    inversion H; subst v r; split; eauto.
Qed.

Lemma match_number_fuel (m : nat) (s : str) : match_number m s <> NoFuel.
Proof.
  unfold match_number. intros H. repeat split_in H.
Qed.

Lemma pmap_parsed {A B} (f : A -> B) (p : presult A) (v : B) (r : str) :
  pmap f p = Parsed v r -> exists a, p = Parsed a r /\ v = f a.
Proof. destruct p; cbn [pmap]; intros H; inversion H; subst; eauto. Qed.

Lemma startswith_skipn (p s : str) (n : nat) :
  startswith p s = true -> n = List.length p -> n <> 0 ->
  strict_suffix (skipn n s) s.
Proof.
  intros H -> Hn. destruct (startswith_split _ _ H) as [b ->].
  rewrite skipn_app, Nat.sub_diag, skipn_all. cbn [app skipn].
  exists p. split; [|reflexivity]. destruct p; [now elim Hn|discriminate].
Qed.

Lemma Parsed_inv {A} (a a' : A) (r r' : str) :
  Parsed a r = Parsed a' r' -> a = a' /\ r = r'.
Proof. intros H; now inversion H. Qed.

Lemma strict_suffix_after_ws (c : N) (r s t : str) :
  skip_ws s = c :: t -> strict_suffix r (c :: t) -> strict_suffix r s.
Proof. intros E H. apply strict_suffix_skip_ws. now rewrite E. Qed.

Lemma strict_suffix_ws_head (c : N) (s t : str) :
  skip_ws s = c :: t -> strict_suffix t s.
Proof.
  intros E. eapply strict_suffix_after_ws; [exact E|].
  apply strict_suffix_cons.
Qed.

Local Ltac chain :=
  repeat first
    [ eassumption
    | eapply strict_suffix_trans; [|eassumption] ].

Lemma rest_ok_all m fuel : rest_ok m fuel.
Proof.
  induction fuel as [|f (IHs & IHo & IHa)]; [repeat split; discriminate|].
  repeat split.
  - intros depth s v r H. destruct s as [|c s1]; [discriminate|].
    cbn [scan_once] in H. unfold parse_constant in H.
    repeat split_in H;
      try (apply Parsed_inv in H as [<- <-];
           eapply startswith_skipn; [eassumption|reflexivity|discriminate]);
      first
        [ now apply match_number_split in H
        | apply pmap_parsed in H as (a & H & _); apply at_level_parsed in H;
          apply strict_suffix_step; now apply scanstring_rest in H
        | apply IHo in H;
          eapply strict_suffix_step, strict_suffix_after_ws; eassumption
        | apply IHa in H;
          eapply strict_suffix_step, strict_suffix_after_ws; eassumption
        | apply Parsed_inv in H as [_ <-];
          eapply strict_suffix_step, strict_suffix_ws_head; eassumption ].
  - intros depth d s v r H.
    destruct s as [|q s1]; cbn [object_members] in H;
      [now apply raise_errmsg_parsed in H|].
    repeat split_in H;
      [apply Parsed_inv in H as [<- <-]
      |apply IHo, strict_suffix_skip_ws in H];
      repeat match goal with
      | E : at_level _ _ = Parsed _ _ |- _ => apply at_level_parsed in E
      | E : scanstring _ = Parsed _ _ |- _ => apply scanstring_rest in E
      | E : scan_once _ f _ _ = Parsed _ _ |- _ =>
          apply IHs, strict_suffix_skip_ws in E
      | E : skip_ws _ = _ :: _ |- _ => apply strict_suffix_ws_head in E
      end;
      apply strict_suffix_step; chain.
  - intros depth acc s v r H. cbn [array_items] in H.
    repeat split_in H;
      [apply Parsed_inv in H as [<- <-]
      |apply IHa, strict_suffix_skip_ws in H];
      repeat match goal with
      | E : scan_once _ f _ _ = Parsed _ _ |- _ => apply IHs in E
      | E : skip_ws _ = _ :: _ |- _ => apply strict_suffix_ws_head in E
      end;
      chain.
Qed.


Lemma scan_once_rest m fuel depth s v r :
  scan_once m fuel depth s = Parsed v r -> strict_suffix r s.
Proof. apply rest_ok_all. Qed.

Lemma pmap_fuel {A B} (f : A -> B) (p : presult A) :
  pmap f p = NoFuel -> p = NoFuel.
Proof. destruct p; cbn [pmap]; congruence. Qed.

Lemma skip_ws_eq_length (s t : str) :
  skip_ws s = t -> List.length t <= List.length s.
Proof. intros <-. apply skip_ws_length. Qed.

Local Ltac lengths :=
  repeat match goal with
  | E : at_level _ _ = Parsed _ _ |- _ => apply at_level_parsed in E
  | E : scanstring _ = Parsed _ _ |- _ =>
      apply scanstring_rest, strict_suffix_length in E
  | E : scan_once _ _ _ _ = Parsed _ _ |- _ =>
      apply scan_once_rest, strict_suffix_length in E
  | E : skip_ws _ = _ |- _ => apply skip_ws_eq_length in E
  end;
  repeat match goal with
  | |- context [skip_ws ?s] =>
      lazymatch goal with
      | _ : List.length (skip_ws s) <= List.length s |- _ => fail
      | _ => pose proof (skip_ws_length s)
      end
  | _ : context [skip_ws ?s] |- _ =>
      lazymatch goal with
      | _ : List.length (skip_ws s) <= List.length s |- _ => fail
      | _ => pose proof (skip_ws_length s)
      end
  end;
  cbn [List.length] in *; lia.

Lemma fuel_ok_all m fuel : fuel_ok m fuel.
Proof.
  induction fuel as [|f (IHs & IHo & IHa)]; [repeat split; intros; lia|].
  repeat split.
  - intros depth s Hf H. destruct s as [|c s1]; [discriminate|].
    cbn [scan_once] in H. unfold parse_constant in H.
    repeat split_in H;
      first
        [ now apply match_number_fuel in H
        | apply pmap_fuel, at_level_fuel in H; now apply scanstring_fuel in H
        | revert H; apply IHo; lengths
        | revert H; apply IHa; lengths ].
  - intros depth d s Hf H.
    destruct s as [|q s1]; cbn [object_members] in H;
      [now apply raise_errmsg_fuel in H|].
    repeat split_in H.
    + revert H. apply IHo. lengths.
    + match goal with E : scan_once _ f _ _ = NoFuel |- _ => revert E end.
      apply IHs. lengths.
    + match goal with E : at_level _ (scanstring _) = NoFuel |- _ =>
        apply at_level_fuel in E; now apply scanstring_fuel in E end.
  - intros depth acc s Hf H. cbn [array_items] in H.
    repeat split_in H.
    + revert H. apply IHa. lengths.
    + match goal with E : scan_once _ f _ _ = NoFuel |- _ => revert E end.
      apply IHs. lengths.
Qed.

(** [json.loads] never exhausts the steps it gives to [scan_once]: the
    bound only makes the recursion structural. *)
Lemma scan_once_fuel (m depth : nat) (s : str) :
  scan_once m (S (2 * List.length s)) depth (skip_ws s) <> NoFuel.
Proof.
  apply fuel_ok_all. pose proof (skip_ws_length s). lia.
Qed.

End DecoderFacts.

Section DictFacts.

Lemma str_eqb_eq (a b : str) : str_eqb a b = true <-> a = b.
Proof.
  unfold str_eqb. destruct (list_eq_dec N.eq_dec a b); split; congruence.
Qed.

Lemma str_eqb_refl (a : str) : str_eqb a a = true.
Proof. now apply str_eqb_eq. Qed.

Lemma dict_lookup_set (k key : str) (v : pyval) (d : list (str * pyval)) :
  dict_lookup k (dict_set key v d) =
  if str_eqb k key then Some v else dict_lookup k d.
Proof.
  induction d as [|[k' v'] d IH]; cbn [dict_set dict_lookup]; [reflexivity|].
  destruct (str_eqb key k') eqn:E; cbn [dict_lookup].
  - apply str_eqb_eq in E. subst k'. now destruct (str_eqb k key).
  - rewrite IH. destruct (str_eqb k k') eqn:E1; [|reflexivity].
    apply str_eqb_eq in E1. subst k'.
    destruct (str_eqb k key) eqn:E2; [|reflexivity].
    apply str_eqb_eq in E2. subst key. rewrite str_eqb_refl in E. discriminate.
Qed.

End DictFacts.

Section KindFacts.

Lemma kinds_ok_all m fuel : kinds_ok m fuel.
Proof.
  induction fuel as [|f (IHo & IHa)]; [split; discriminate|].
  split.
  - intros depth d s v r H.
    destruct s as [|q s1]; cbn [object_members] in H;
      [now apply raise_errmsg_parsed in H|].
    repeat split_in H; [apply Parsed_inv in H as [<- _]; eauto|eauto].
  - intros depth acc s v r H. cbn [array_items] in H.
    repeat split_in H; [apply Parsed_inv in H as [<- _]; eauto|eauto].
Qed.

(** Only a string literal decodes to a [str]. *)
Lemma scan_once_str (m fuel depth : nat) (s x r : str) :
  scan_once m fuel depth s = Parsed (PStr x) r ->
  exists s1, s = 34%N :: s1 /\ scanstring s1 = Parsed x r.
Proof.
  destruct fuel as [|f]; [discriminate|].
  destruct s as [|c s1]; [discriminate|].
  cbn [scan_once]. unfold parse_constant. intros H.
  repeat split_in H;
    try (apply Parsed_inv in H as [H _]; discriminate H);
    first
      [ apply match_number_split in H as [_ [[z H]|[z H]]]; discriminate H
      | apply kinds_ok_all in H as [d' H]; discriminate H
      | idtac ].
  apply pmap_parsed in H as (a & H & E). inversion E; subst a.
  apply at_level_parsed in H.
  match goal with E : (c =? 34)%N = true |- _ => apply N.eqb_eq in E; subst c end.
  eauto.
Qed.

End KindFacts.

Section SuffixFacts.

Lemma suffix_refl (t : str) : suffix t t.
Proof. now exists []. Qed.

Lemma suffix_strict (r s t : str) :
  suffix s t -> strict_suffix r s -> suffix r t.
Proof.
  intros [a ->] (b & _ & ->). exists (a ++ b). now rewrite app_assoc.
Qed.

Lemma suffix_tail (c : N) (s t : str) : suffix (c :: s) t -> suffix s t.
Proof. intros H. eapply suffix_strict; [exact H|apply strict_suffix_cons]. Qed.

Lemma suffix_skip_ws (s t : str) : suffix s t -> suffix (skip_ws s) t.
Proof.
  intros [a ->]. destruct (skip_ws_split s) as [b Hb].
  exists (a ++ b). now rewrite <- app_assoc, <- Hb.
Qed.

Lemma suffix_after_ws (c : N) (s s' t : str) :
  suffix s t -> skip_ws s = c :: s' -> suffix s' t.
Proof.
  intros H E. apply suffix_skip_ws in H. rewrite E in H.
  now apply suffix_tail in H.
Qed.

Lemma infix_suffix (x s t : str) : suffix s t -> infix x s -> infix x t.
Proof.
  intros [a ->] (b & e & ->). exists (a ++ b), e. now rewrite <- app_assoc.
Qed.

Lemma contains_suffix (x s t : str) :
  suffix s t -> contains x s = true -> contains x t = true.
Proof.
  intros Hs H. apply contains_infix. apply contains_infix in H.
  now apply (infix_suffix _ _ _ Hs).
Qed.

(** A text that does not contain [x] has no end that contains it. *)
Lemma absent_suffix (x s t : str) :
  suffix s t -> contains x t = false -> contains x s = false.
Proof.
  intros Hs Ht. destruct (contains x s) eqn:E; [|reflexivity].
  apply (contains_suffix _ _ _ Hs) in E. congruence.
Qed.

Lemma strict_suffix_suffix (r s : str) : strict_suffix r s -> suffix r s.
Proof. intros (a & _ & ->). now exists a. Qed.

End SuffixFacts.

(** Where the backticks of a decoded string come from. *)
Section EscapeFacts.

Lemma unescape_not_backtick (e c : N) :
  unescape e = Some c -> c <> backtick.
Proof.
  unfold unescape, backtick. intros H.
  repeat split_in H; inversion H; discriminate.
Qed.

Lemma hex_digit_bound (a x : N) : hex_digit a = Some x -> (x < 16)%N.
Proof.
  unfold hex_digit, is_digit. intros H.
  repeat split_in H; inversion H; subst x;
    repeat match goal with
    | E : (_ && _)%bool = true |- _ => apply andb_true_iff in E as [? ?]
    | E : (_ <=? _)%N = true |- _ => apply N.leb_le in E
    end; lia.
Qed.

(** Only the digit 0 has the value 0, and only the digit 6 the value 6. *)
Lemma hex_digit_value (a x : N) :
  hex_digit a = Some x -> (x = 0%N -> a = 48%N) /\ (x = 6%N -> a = 54%N).
Proof.
  unfold hex_digit, is_digit. intros H.
  repeat split_in H; inversion H; subst x;
    repeat match goal with
    | E : (_ && _)%bool = true |- _ => apply andb_true_iff in E as [? ?]
    | E : (_ <=? _)%N = true |- _ => apply N.leb_le in E
    end; split; intros; lia.
Qed.

(** The only four hexadecimal digits that stand for a backtick. *)
Lemma hex4_backtick (a b c d : N) :
  hex4 a b c d = Some backtick ->
  a = 48%N /\ b = 48%N /\ c = 54%N /\ d = 48%N.
Proof.
  unfold hex4, backtick.
  destruct (hex_digit a) as [x|] eqn:Ea; [|discriminate].
  destruct (hex_digit b) as [y|] eqn:Eb; [|discriminate].
  destruct (hex_digit c) as [z|] eqn:Ec; [|discriminate].
  destruct (hex_digit d) as [w|] eqn:Ed; [|discriminate].
  intros H. inversion H as [E]. clear H.
  pose proof (hex_digit_bound _ _ Ea). pose proof (hex_digit_bound _ _ Eb).
  pose proof (hex_digit_bound _ _ Ec). pose proof (hex_digit_bound _ _ Ed).
  assert (Hv : (x = 0 /\ y = 0 /\ z = 6 /\ w = 0)%N) by lia.
  destruct Hv as (Hx & Hy & Hz & Hw). subst x y z w.
  repeat split;
    [apply (hex_digit_value _ _ Ea)|apply (hex_digit_value _ _ Eb)
    |apply (hex_digit_value _ _ Ec)|apply (hex_digit_value _ _ Ed)];
    reflexivity.
Qed.

Lemma join_surrogates_not_backtick (u u2 : N) :
  join_surrogates u u2 <> backtick.
Proof. unfold join_surrogates, backtick. lia. Qed.

Local Ltac peel' H := first [exact H | apply strict_suffix_step; peel' H].

(** The first character of a decoded string is the first character of the
    literal, or comes from an escape; a backtick comes from no other escape
    than [escaped_backtick]. *)
Lemma scanstring_cons (s : str) (c : N) (x r : str) :
  scanstring s = Parsed (c :: x) r ->
  exists s',
    scanstring s' = Parsed x r /\ strict_suffix s' s /\
    (s = c :: s' \/
     (c = backtick -> startswith escaped_backtick s = true)).
Proof.
  destruct s as [|c0 s1]; [discriminate|].
  cbn [scanstring]. intros H.
  destruct (c0 =? 34)%N; [discriminate H|].
  destruct (c0 =? 92)%N eqn:E92.
  - apply N.eqb_eq in E92. subst c0.
    destruct s1 as [|e s2]; [discriminate H|].
    destruct (e =? 117)%N eqn:E117.
    + apply N.eqb_eq in E117. subst e.
      destruct s2 as [|h1 [|h2 [|h3 [|h4 s3]]]]; try discriminate H.
      destruct (hex4 h1 h2 h3 h4) as [u|] eqn:Eh; [|discriminate H].
      assert (Hlit : pcons u (scanstring s3) = Parsed (c :: x) r ->
                     exists s',
                       scanstring s' = Parsed x r /\
                       strict_suffix s'
                         (92 :: 117 :: h1 :: h2 :: h3 :: h4 :: s3)%N /\
                       ((92 :: 117 :: h1 :: h2 :: h3 :: h4 :: s3)%N = c :: s' \/
                        (c = backtick ->
                         startswith escaped_backtick
                           (92 :: 117 :: h1 :: h2 :: h3 :: h4 :: s3)%N
                         = true))).
      { intros H'. apply pcons_parsed in H' as (v' & H' & E).
        inversion E; subst u v'. exists s3.
        split; [exact H'|]. split; [do 5 apply strict_suffix_step;
                                    apply strict_suffix_cons|].
        right. intros ->. apply hex4_backtick in Eh as (-> & -> & -> & ->).
        reflexivity. }
      destruct (is_high_surrogate u); [|now apply Hlit].
      destruct s3 as [|b [|e' [|l1 [|l2 [|l3 [|l4 s4]]]]]];
        try (now apply Hlit).
      destruct ((b =? 92) && (e' =? 117))%N; [|now apply Hlit].
      destruct (hex4 l1 l2 l3 l4) as [u2|]; [|discriminate H].
      destruct (is_low_surrogate u2); [|now apply Hlit].
      apply pcons_parsed in H as (v' & H & E). inversion E; subst c v'.
      exists s4. split; [exact H|].
      split; [do 11 apply strict_suffix_step; apply strict_suffix_cons|].
      right. intros E'. now apply join_surrogates_not_backtick in E'.
    + destruct (unescape e) as [c'|] eqn:Eu; [|discriminate H].
      apply pcons_parsed in H as (v' & H & E). inversion E; subst c' v'.
      exists s2. split; [exact H|].
      split; [apply strict_suffix_step, strict_suffix_cons|].
      right. intros E'. now apply unescape_not_backtick in Eu.
  - destruct (c0 <=? 31)%N; [discriminate H|].
    apply pcons_parsed in H as (v' & H & E). inversion E; subst c0 v'.
    exists s1. split; [exact H|]. split; [apply strict_suffix_cons|now left].
Qed.

Lemma absent_tail (x : str) (c : N) (s : str) :
  contains x (c :: s) = false -> contains x s = false.
Proof.
  rewrite contains_unfold. intros H. now apply orb_false_iff in H as [_ H].
Qed.

Lemma absent_head (x s : str) :
  contains x s = false -> startswith x s = false.
Proof.
  rewrite contains_unfold. intros H. now apply orb_false_iff in H as [H _].
Qed.

(** Backticks at the start of a decoded string stand at the start of the
    literal, when the literal holds no escaped backtick. *)
Lemma scanstring_backticks (n : nat) (s x r : str) :
  contains escaped_backtick s = false ->
  scanstring s = Parsed x r ->
  startswith (repeat backtick n) x = true ->
  startswith (repeat backtick n) s = true.
Proof.
  revert s x; induction n as [|n IH]; intros s x He H Hx; [reflexivity|].
  cbn [repeat] in Hx |- *.
  destruct x as [|c x]; [discriminate Hx|].
  cbn [startswith] in Hx. apply andb_true_iff in Hx as [Hc Hx].
  apply N.eqb_eq in Hc. subst c.
  apply scanstring_cons in H as (s' & H & _ & [-> | Hesc]).
  - cbn [startswith]. rewrite N.eqb_refl. cbn [andb].
    apply (IH s' x); [now apply absent_tail in He|exact H|exact Hx].
  - apply absent_head in He. rewrite Hesc in He by reflexivity.
    discriminate He.
Qed.

(** A fence marker in a decoded string stands in the literal, when the
    literal holds no escaped backtick. *)
Lemma scanstring_fence (x s r : str) :
  contains escaped_backtick s = false ->
  scanstring s = Parsed x r ->
  contains fence x = true -> contains fence s = true.
Proof.
  revert s; induction x as [|c x IH]; intros s He H Hx; [discriminate Hx|].
  rewrite contains_unfold in Hx. apply orb_true_iff in Hx as [Hx|Hx].
  - rewrite contains_unfold.
    change fence with (repeat backtick 3) in Hx |- *.
    now rewrite (scanstring_backticks 3 s (c :: x) r He H Hx).
  - apply scanstring_cons in H as (s' & H & Hs & _).
    apply strict_suffix_suffix in Hs.
    apply (contains_suffix _ _ _ Hs).
    apply IH; [|exact H|exact Hx].
    now apply (absent_suffix _ _ _ Hs).
Qed.

Lemma strs_clean_set (key : str) (v : pyval) (d : list (str * pyval)) :
  strs_clean d -> (forall x, v = PStr x -> contains fence x = false) ->
  strs_clean (dict_set key v d).
Proof.
  intros Hd Hv k x. rewrite dict_lookup_set.
  destruct (str_eqb k key).
  - intros E. inversion E. now apply Hv.
  - apply Hd.
Qed.

(** The text [t] handed to the decoder holds neither a fence marker nor an
    escaped backtick. *)
Section CleanText.

Variable t : str.
Hypothesis no_fence : contains fence t = false.
Hypothesis no_escape : contains escaped_backtick t = false.

Lemma scan_once_str_clean (m fuel depth : nat) (s x r : str) :
  suffix s t -> scan_once m fuel depth s = Parsed (PStr x) r ->
  contains fence x = false.
Proof.
  intros Hs H. apply scan_once_str in H as (s1 & -> & H).
  apply suffix_tail in Hs.
  destruct (contains fence x) eqn:E; [|reflexivity].
  apply (scanstring_fence x s1 r) in E;
    [|now apply (absent_suffix _ _ _ Hs)|exact H].
  apply (contains_suffix _ _ _ Hs) in E. congruence.
Qed.

Lemma object_members_clean (m fuel : nat) :
  forall depth d s v r,
    suffix s t -> strs_clean d ->
    object_members m fuel depth d s = Parsed v r ->
    exists d', v = PDict d' /\ strs_clean d'.
Proof.
  induction fuel as [|f IH]; intros depth d s v r Hs Hd H; [discriminate|].
  destruct s as [|q s1]; cbn [object_members] in H;
    [now apply raise_errmsg_parsed in H|].
  destruct (q =? 34)%N; [|now apply raise_errmsg_parsed in H].
  destruct (at_level depth (scanstring s1)) as [key s2| | | |] eqn:Ek;
    try discriminate.
  apply at_level_parsed in Ek.
  destruct (skip_ws s2) as [|colon s3] eqn:E2;
    [now apply raise_errmsg_parsed in H|].
  destruct (colon =? 58)%N; [|now apply raise_errmsg_parsed in H].
  destruct (scan_once m f depth (skip_ws s3)) as [v0 s4| | | |] eqn:Ev;
    try discriminate.
  destruct (skip_ws s4) as [|c s5] eqn:E4;
    [now apply raise_errmsg_parsed in H|].
  assert (H3 : suffix (skip_ws s3) t).
  { apply suffix_skip_ws. eapply suffix_after_ws; [|exact E2].
    eapply suffix_strict; [|eapply scanstring_rest; exact Ek].
    eapply suffix_tail; exact Hs. }
  assert (Hd' : strs_clean (dict_set key v0 d)).
  { apply strs_clean_set; [exact Hd|]. intros x ->.
    eapply scan_once_str_clean; eassumption. }
  destruct (c =? 125)%N.
  - apply Parsed_inv in H as [<- _]. eauto.
  - destruct (c =? 44)%N; [|now apply raise_errmsg_parsed in H].
    eapply IH; [|exact Hd'|exact H].
    apply suffix_skip_ws. eapply suffix_after_ws; [|exact E4].
    eapply suffix_strict; [exact H3|]. eapply scan_once_rest; exact Ev.
Qed.

Lemma scan_once_dict_clean (m fuel depth : nat) (s r : str)
  (d : list (str * pyval)) :
  suffix s t -> scan_once m fuel depth s = Parsed (PDict d) r ->
  strs_clean d.
Proof.
  destruct fuel as [|f]; [discriminate|].
  destruct s as [|c s1]; [discriminate|].
  cbn [scan_once]. unfold parse_constant. intros Hs H.
  apply suffix_tail in Hs.
  destruct (c =? 34)%N.
  { apply pmap_parsed in H as (a & _ & E). discriminate E. }
  destruct (c =? 123)%N.
  { destruct depth as [|depth']; [discriminate H|].
    destruct (skip_ws s1) as [|c' s2] eqn:E1;
      [now apply raise_errmsg_parsed in H|].
    destruct (c' =? 125)%N.
    - apply Parsed_inv in H as [H _]. inversion H. intros k x E. discriminate E.
    - apply object_members_clean in H as (d' & E & Hd').
      + inversion E. now subst d'.
      + rewrite <- E1. now apply suffix_skip_ws.
      + intros k x E. discriminate E. }
  repeat split_in H;
    try (apply Parsed_inv in H as [H _]; discriminate H);
    first
      [ apply match_number_split in H as [_ [[z H]|[z H]]]; discriminate H
      | apply kinds_ok_all in H as [l H]; discriminate H ].
Qed.

(** No string value of an object decoded from [t] holds a fence marker. *)
Lemma json_loads_clean (py : Interpreter) (d : list (str * pyval)) :
  json_loads py t = Ok (PDict d) -> strs_clean d.
Proof.
  unfold json_loads. intros H.
  destruct (startswith [65279%N] t); [discriminate|].
  destruct (scan_once _ _ _ (skip_ws t)) as [v rest| | | |] eqn:E;
    try discriminate.
  destruct (skip_ws rest); [|discriminate].
  inversion H; subst v.
  eapply scan_once_dict_clean; [|exact E].
  apply suffix_skip_ws, suffix_refl.
Qed.

End CleanText.

End EscapeFacts.

Section ParseFacts.

Variable py : Interpreter.

Lemma parse_response_pure (text : str) (s : state) :
  parse_response py text s = (fst (parse_response py text initial), s).
Proof.
  unfold parse_response, try_except, bind, loads, lift.
  destruct (json_loads py (strip_fences text)) as [v|e].
  - destruct v; try reflexivity.
    cbv beta iota delta [get ret raise].
    destruct (score_invalid _); reflexivity.
  - destruct (is_JSONDecodeError_or_ValueError e); reflexivity.
Qed.

(** An exception of [json.loads] that the inner [except] catches. *)
Lemma parse_response_caught (text : str) (e : exn) (s : state) :
  json_loads py (strip_fences text) = Raise e ->
  is_JSONDecodeError_or_ValueError e = true ->
  parse_response py text s =
  (Ok (PInt 50, PStr (parse_error_suggestions text)), s).
Proof.
  intros H He. unfold parse_response, try_except, bind, loads, lift.
  now rewrite H, He.
Qed.

(** An exception of [json.loads] that passes the inner [except]. *)
Lemma parse_response_uncaught (text : str) (e : exn) (s : state) :
  json_loads py (strip_fences text) = Raise e ->
  is_JSONDecodeError_or_ValueError e = false ->
  parse_response py text s = (Raise e, s).
Proof.
  intros H He. unfold parse_response, try_except, bind, loads, lift.
  now rewrite H, He.
Qed.

Lemma parse_response_dict (text : str) (d : list (str * pyval))
  (s : state) :
  json_loads py (strip_fences text) = Ok (PDict d) ->
  parse_response py text s = (Ok (fields_of text d), s).
Proof.
  intros H. unfold parse_response, try_except, bind, loads, lift, fields_of.
  rewrite H. cbv beta iota delta [get ret raise].
  destruct (score_invalid _); reflexivity.
Qed.

(** A decoded value that is not a dict has no [get]: the [AttributeError]
    passes the inner [except]. *)
Lemma parse_response_not_object (text : str) (v : pyval) (s : state) :
  json_loads py (strip_fences text) = Ok v ->
  (forall d, v <> PDict d) ->
  parse_response py text s = (Raise (attribute_error v), s).
Proof.
  intros H Hv. unfold parse_response, try_except, bind, loads, lift.
  rewrite H. destruct v; try reflexivity. now elim (Hv d).
Qed.

End ParseFacts.

Section RunFacts.

Variables (g : Globals) (job_description job_title : str)
          (resume_file : UploadFile).

Let mime := content_type resume_file.
Let exec := ats_optimize_resume g job_description job_title resume_file initial.

Local Ltac step :=
  cbv beta iota zeta delta
    [ats_optimize_resume bind try_finally try_except set_uploaded_file
     lift the_client service cleanup get_uploaded_file ret raise initial
     uploaded_file calls is_Exception negb app].

Lemma run_exec (r : result AnalysisResult) (s : state) :
  exec = (r, s) ->
  run g job_description job_title resume_file = (r, calls s).
Proof. subst exec. unfold run. now intros ->. Qed.

Lemma exec_invalid_type :
  invalid_file_type mime = true ->
  exec = (Raise (HTTPException 400 invalid_file_type_detail), initial).
Proof. subst exec mime. intros H. step. now rewrite H. Qed.

Lemma exec_mock :
  invalid_file_type mime = false -> GEMINI_CONFIGURED g = false ->
  exec = (Ok mock_result, initial).
Proof. subst exec mime. intros H1 H2. step. now rewrite H1, H2. Qed.

Hypothesis valid_type : invalid_file_type mime = false.
Hypothesis configured : GEMINI_CONFIGURED g = true.

Lemma exec_read_fails (e : exn) :
  read resume_file = Raise e ->
  exec = (service_error e, initial).
Proof.
  subst exec mime. intros H. step.
  rewrite valid_type, configured, H. reflexivity.
Qed.

Lemma exec_no_client (file_bytes : list Byte.byte) :
  read resume_file = Ok file_bytes -> client g = None ->
  exec =
  (service_error (NameError (lit "name 'client' is not defined")), initial).
Proof.
  subst exec mime. intros H1 H2. step.
  rewrite valid_type, configured, H1, H2. reflexivity.
Qed.

Variables (c : Client) (file_bytes : list Byte.byte).
Hypothesis bound : client g = Some c.
Hypothesis read_ok : read resume_file = Ok file_bytes.

Lemma exec_upload_fails (e : exn) :
  files_upload c file_bytes mime = Raise e ->
  exec = (service_error e,
          {| uploaded_file := None;
             calls := [CallUpload file_bytes mime] |}).
Proof.
  subst exec mime. intros H. step.
  rewrite valid_type, configured, read_ok, bound. step. rewrite H.
  reflexivity.
Qed.

Lemma exec_uploaded (h : File) :
  files_upload c file_bytes mime = Ok h ->
  let req := generate_request job_title job_description h in
  exec =
  (settle (files_delete c (name h))
          (pending_outcome (interpreter g) (generation g c req)),
   {| uploaded_file := Some h;
      calls := calls_after_upload g file_bytes mime req h |}).
Proof.
  subst exec mime. intros H req. step.
  rewrite valid_type, configured, read_ok, bound. step. rewrite H. step.
  fold req. unfold pending_outcome, settle, generation, calls_after_upload.
  destruct (build_request (types g) req) as [u|e].
  - destruct (models_generate_content c req) as [text|e].
    + rewrite parse_response_pure.
      destruct (fst (parse_response _ text _)) as [ms|e]; step;
        destruct (files_delete c (name h)); reflexivity.
    + step. destruct (files_delete c (name h)); reflexivity.
  - step. destruct (files_delete c (name h)); reflexivity.
Qed.

End RunFacts.

Section ScoreFacts.

Lemma contains_app_r (x p : str) : contains x (p ++ x) = true.
Proof. apply contains_infix. exists p, []. now rewrite app_nil_r. Qed.

Lemma contains_app_l (x q : str) : contains x (x ++ q) = true.
Proof. apply contains_infix. now exists [], q. Qed.

Lemma score_valid_shape (v : pyval) :
  score_invalid v = false -> is_score v \/ exists b, v = PBool b.
Proof.
  unfold score_invalid. intros H.
  apply orb_false_iff in H as [H H2]. apply orb_false_iff in H as [H0 H1].
  destruct v; try discriminate H0.
  - right. eauto.
  - left. exists z. cbn [int_value] in H1, H2. split; [reflexivity|lia].
Qed.

Lemma score_invalid_wrong (v : pyval) :
  not_int_nor_bool v \/ out_of_range v -> score_invalid v = true.
Proof.
  unfold score_invalid, not_int_nor_bool.
  intros [H|(z & -> & H)].
  - now rewrite H.
  - cbn [isinstance_int int_value negb orb].
    destruct H as [H|H]; [apply Z.ltb_lt in H|apply Z.gtb_lt in H];
      rewrite H; [reflexivity|apply orb_true_r].
Qed.

Lemma dict_get_found (d : list (str * pyval)) (k : str) (v default : pyval) :
  dict_lookup k d = Some v -> dict_get d k default = v.
Proof. unfold dict_get. now intros ->. Qed.

Lemma dict_get_missing (d : list (str * pyval)) (k : str) (default : pyval) :
  dict_lookup k d = None -> dict_get d k default = default.
Proof. unfold dict_get. now intros ->. Qed.

(** The three exceptions of [json.loads]. *)
Lemma json_loads_raises (py : Interpreter) (s : str) (e : exn) :
  json_loads py s = Raise e ->
  e = JSONDecodeError \/
  (exists n, e = ValueError (int_limit_message (int_max_str_digits py) n)) \/
  (exists k, e = RecursionError (recursion_message k)).
Proof.
  unfold json_loads. intros H.
  repeat split_in H; inversion H; eauto.
Qed.

Variable py : Interpreter.

Lemma pending_caught (text : str) (e : exn) :
  json_loads py (strip_fences text) = Raise e ->
  is_JSONDecodeError_or_ValueError e = true ->
  pending_outcome py (Ok text) = Ok (degraded_result text).
Proof.
  intros H He. unfold pending_outcome.
  now rewrite (parse_response_caught py text e initial H He).
Qed.

Lemma pending_uncaught (text : str) (e : exn) :
  json_loads py (strip_fences text) = Raise e ->
  is_JSONDecodeError_or_ValueError e = false ->
  pending_outcome py (Ok text) = service_error e.
Proof.
  intros H He. unfold pending_outcome.
  now rewrite (parse_response_uncaught py text e initial H He).
Qed.

Lemma pending_dict (text : str) (d : list (str * pyval)) :
  json_loads py (strip_fences text) = Ok (PDict d) ->
  pending_outcome py (Ok text) =
  Ok {| success := true;
        matchScore := fst (fields_of text d);
        suggestions := snd (fields_of text d) |}.
Proof.
  intros H. unfold pending_outcome.
  now rewrite (parse_response_dict py text d initial H).
Qed.

Lemma pending_not_object (text : str) (v : pyval) :
  json_loads py (strip_fences text) = Ok v ->
  (forall d, v <> PDict d) ->
  pending_outcome py (Ok text) = service_error (attribute_error v).
Proof.
  intros Hj Hv. unfold pending_outcome.
  now rewrite (parse_response_not_object py text v initial Hj Hv).
Qed.

(** The outermost container always fits, and the literal 88 is short: the
    well-formed answer is decoded whatever the limits. *)
Lemma pending_well_formed (text : str) :
  In text well_formed_variants ->
  pending_outcome py (Ok text) = Ok well_formed_result.
Proof.
  intros H. repeat (destruct H as [<-|H]; [vm_compute; reflexivity|]).
  destruct H.
Qed.

(** What is left pending after an answer: a result built from a decoded
    object, the degraded result, or the 500 response. *)
Lemma pending_outcome_cases (text : str) :
  (exists e, json_loads py (strip_fences text) = Raise e /\
             is_JSONDecodeError_or_ValueError e = true /\
             pending_outcome py (Ok text) = Ok (degraded_result text)) \/
  (exists d, json_loads py (strip_fences text) = Ok (PDict d) /\
             pending_outcome py (Ok text) =
             Ok {| success := true;
                   matchScore := fst (fields_of text d);
                   suggestions := snd (fields_of text d) |}) \/
  (exists e, pending_outcome py (Ok text) = service_error e /\
             ((json_loads py (strip_fences text) = Raise e /\
               is_JSONDecodeError_or_ValueError e = false) \/
              (exists v, json_loads py (strip_fences text) = Ok v /\
                         (forall d, v <> PDict d) /\
                         e = attribute_error v))).
Proof.
  destruct (json_loads py (strip_fences text)) as [v|e] eqn:E.
  - assert (Hd : (exists d, v = PDict d) \/ (forall d, v <> PDict d))
      by (destruct v; try (right; intros d'; discriminate); left; eauto).
    destruct Hd as [[d ->]|Hv].
    + right. left. exists d. split; [reflexivity|now apply pending_dict].
    + right. right. exists (attribute_error v).
      split; [now apply pending_not_object|]. right. now exists v.
    - destruct (is_JSONDecodeError_or_ValueError e) eqn:He.
    + left. exists e. split; [reflexivity|]. split; [exact He|].
      now apply (pending_caught text e).
    + right. right. exists e.
      split; [now apply pending_uncaught|]. now left.
Qed.

Lemma pending_outcome_score (answer : result str) (res : AnalysisResult) :
  pending_outcome py answer = Ok res ->
  is_score (matchScore res) \/ exists b, matchScore res = PBool b.
Proof.
  destruct answer as [text|e]; [|discriminate].
  destruct (pending_outcome_cases text)
    as [(e & _ & _ & ->)|[(d & _ & ->)|(e & -> & _)]];
    [| |discriminate].
  - intros H; inversion H; subst res. cbn [matchScore degraded_result].
    left. exists 50%Z. split; [reflexivity|lia].
  - intros H; inversion H; subst res. cbn [matchScore].
    unfold fields_of.
    destruct (score_invalid (dict_get d (lit "matchScore") (PInt 0))) eqn:Hs;
      cbn [fst].
    + left. exists 50%Z. split; [reflexivity|lia].
    + now apply score_valid_shape.
Qed.

Lemma service_error_detail_text (e : exn) :
  contains (exn_str e) (service_error_detail e) = true.
Proof. apply contains_app_r. Qed.

Lemma invalid_file_type_declared (t : str) :
  t <> [] ->
  invalid_file_type (Some t) =
  negb (startswith pdf_prefix t || startswith docx_prefix t).
Proof.
  intros Ht. destruct t as [|a t]; [congruence|].
  unfold invalid_file_type, startswith_any. cbn [existsb].
  now rewrite orb_false_r.
Qed.

End ScoreFacts.

Section GenerationFacts.

Variables (g : Globals) (c : Client) (req : GenerateRequest).

(** The generation step answers only when the request was built and the
    call made. *)
Lemma generation_answered (text : str) :
  generation g c req = Ok text ->
  build_request (types g) req = Ok tt /\
  models_generate_content c req = Ok text.
Proof.
  unfold generation.
  destruct (build_request (types g) req) as [[]|e]; [|discriminate].
  now split.
Qed.

(** Whatever the generation step does, the one deletion is that of the
    handle. *)
Lemma deletions_after_upload (file_bytes : list Byte.byte)
  (mime : option str) (h : File) :
  deletions (calls_after_upload g file_bytes mime req h) = [name h].
Proof.
  unfold calls_after_upload.
  destruct (build_request (types g) req); reflexivity.
Qed.

End GenerationFacts.

Section LivePath.

Variables (g : Globals) (job_description job_title : str)
          (resume_file : UploadFile) (c : Client)
          (file_bytes : list Byte.byte) (h : File).

Hypothesis live : upload_succeeded g resume_file c file_bytes h.

(** The outcome and the calls of a request whose upload succeeded. *)
Lemma run_uploaded :
  run g job_description job_title resume_file =
  (settle (files_delete c (name h))
          (pending_outcome (interpreter g)
             (generation g c (generate_request job_title job_description h))),
   calls_after_upload g file_bytes (content_type resume_file)
     (generate_request job_title job_description h) h).
Proof.
  destruct live as (Hv & Hcfg & Hc & Hr & Hu).
  erewrite run_exec
    by (apply (exec_uploaded _ _ _ _ Hv Hcfg c file_bytes Hc Hr h Hu)).
  reflexivity.
Qed.

(** The request could not be built: no generation call is made. *)
Lemma run_not_built (e : exn) :
  build_request (types g) (generate_request job_title job_description h)
  = Raise e ->
  run g job_description job_title resume_file =
  (settle (files_delete c (name h)) (service_error e),
   [CallUpload file_bytes (content_type resume_file); CallDelete (name h)]).
Proof.
  intros Hb. rewrite run_uploaded.
  unfold generation, calls_after_upload. now rewrite Hb.
Qed.

(** The request was built and the call made. *)
Lemma run_called :
  build_request (types g) (generate_request job_title job_description h)
  = Ok tt ->
  run g job_description job_title resume_file =
  (settle (files_delete c (name h))
          (pending_outcome (interpreter g)
             (models_generate_content c
                (generate_request job_title job_description h))),
   live_calls file_bytes (content_type resume_file)
              (generate_request job_title job_description h) h).
Proof.
  intros Hb. rewrite run_uploaded.
  unfold generation, calls_after_upload. now rewrite Hb.
Qed.

(** The generation step answered [text]: the call was made. *)
Lemma run_answered (text : str) :
  generation g c (generate_request job_title job_description h) = Ok text ->
  files_delete c (name h) = Ok tt ->
  run g job_description job_title resume_file =
  (pending_outcome (interpreter g) (Ok text),
   live_calls file_bytes (content_type resume_file)
              (generate_request job_title job_description h) h).
Proof.
  intros Hg Hd.
  destruct (generation_answered _ _ _ _ Hg) as [Hb Hc].
  now rewrite (run_called Hb), Hc, Hd.
Qed.

End LivePath.

Section Samples.

Lemma sample_upload_succeeded (answer : result str) (deleted : result unit) :
  upload_succeeded (sample_globals answer deleted) sample_pdf
    (sample_client answer deleted)
    [Byte.x25; Byte.x50; Byte.x44; Byte.x46] sample_file.
Proof. repeat split. Qed.

Lemma sample_run_uploaded (answer : result str) (deleted : result unit) :
  sample_run answer deleted =
  (settle deleted (pending_outcome sample_interpreter answer), sample_calls).
Proof.
  unfold sample_run.
  now rewrite (run_uploaded _ (lit "Run the clusters.") (lit "SRE") _ _ _ _
                 (sample_upload_succeeded answer deleted)).
Qed.

End Samples.

(* ===================================================================== *)
(** ** The properties of the specification *)
(* ===================================================================== *)

(** *** C1: the Remote Upload Handle is deleted exactly once *)

(** C1.  On a backend-configured request, when the handler exits (by a
    normal return, by the degraded return of a parse failure, or by an
    exception: the behaviour of the generation and deletion calls is
    arbitrary here), the variable [uploaded_file] holds a handle exactly
    when the upload call returned one, and then the deletion calls issued
    are exactly one call, for that handle; when it still holds [None], no
    deletion call was issued. *)
Theorem C1_upload_deleted_exactly_once
  (g : Globals) (job_description job_title : str) (resume_file : UploadFile) :
  GEMINI_CONFIGURED g = true ->
  let s :=
    snd (ats_optimize_resume g job_description job_title resume_file initial)
  in
  match uploaded_file s with
  | Some h =>
      handle_created g resume_file h /\ deletions (calls s) = [name h]
  | None =>
      (forall h, ~ handle_created g resume_file h) /\ deletions (calls s) = []
  end.
Proof.
  intros Hcfg.
  destruct (invalid_file_type (content_type resume_file)) eqn:Hv.
  { rewrite exec_invalid_type by exact Hv. cbn.
    split; [|reflexivity]. intros h (c & b & Hv' & _). congruence. }
  destruct (read resume_file) as [file_bytes|e] eqn:Hr.
  2:{ rewrite (exec_read_fails _ _ _ _ Hv Hcfg e Hr). cbn.
      split; [|reflexivity].
      intros h (c & b & _ & _ & _ & Hr' & _). congruence. }
  destruct (client g) as [c|] eqn:Hc.
  2:{ rewrite (exec_no_client _ _ _ _ Hv Hcfg file_bytes Hr Hc). cbn.
      split; [|reflexivity].
      intros h (c & b & _ & _ & Hc' & _). congruence. }
  destruct (files_upload c file_bytes (content_type resume_file))
    as [h|e] eqn:Hu.
  - rewrite (exec_uploaded _ _ _ _ Hv Hcfg c file_bytes Hc Hr h Hu).
    cbn [snd uploaded_file calls].
    split; [|apply deletions_after_upload]. exists c, file_bytes.
    now repeat split.
  - rewrite (exec_upload_fails _ _ _ _ Hv Hcfg c file_bytes Hc Hr e Hu). cbn.
    split; [|reflexivity].
    intros h (c' & b' & _ & _ & Hc' & Hr' & Hu'). congruence.
Qed.

(** C1 at the sample request, on the exception exit: the generation call
    raises, and the one deletion call is for the uploaded file. *)
Lemma C1_witness :
  GEMINI_CONFIGURED (sample_globals (Raise quota_error) (Ok tt)) = true /\
  handle_created (sample_globals (Raise quota_error) (Ok tt))
    sample_pdf sample_file /\
  deletions (snd (sample_run (Raise quota_error) (Ok tt)))
  = [name sample_file].
Proof.
  split; [reflexivity|].
  exact (C1_upload_deleted_exactly_once
           (sample_globals (Raise quota_error) (Ok tt))
           (lit "Run the clusters.") (lit "SRE") sample_pdf eq_refl).
Defined.

(** *** C2: the match score of a returned result *)

(** C2 fails on the code: [isinstance(match_score, int)] accepts a
    boolean, so the answer with a score of [true] is returned with the
    boolean as its [matchScore], which is not an integer from 0 to 100. *)
Theorem C2_boolean_score_returned :
  sample_run (Ok boolean_score_answer) (Ok tt) =
  (Ok {| success := true;
         matchScore := PBool true;
         suggestions := PStr (lit "ok") |},
   sample_calls) /\
  ~ is_score (PBool true).
Proof.
  split; [vm_compute; reflexivity|].
  intros (z & H & _). discriminate H.
Qed.

(** Apart from booleans the invariant holds: the match score of every
    returned result is an integer from 0 to 100 or a boolean. *)
Lemma returned_score_shape
  (g : Globals) (job_description job_title : str) (resume_file : UploadFile)
  (res : AnalysisResult) :
  fst (run g job_description job_title resume_file) = Ok res ->
  is_score (matchScore res) \/ exists b, matchScore res = PBool b.
Proof.
  destruct (invalid_file_type (content_type resume_file)) eqn:Hv.
  { rewrite (run_exec _ _ _ _ _ _ (exec_invalid_type _ _ _ _ Hv)).
    discriminate. }
  destruct (GEMINI_CONFIGURED g) eqn:Hcfg.
  2:{ rewrite (run_exec _ _ _ _ _ _ (exec_mock _ _ _ _ Hv Hcfg)).
      cbn [fst]. intros H; inversion H; subst res.
      left. exists 75%Z. split; [reflexivity|lia]. }
  destruct (read resume_file) as [file_bytes|e] eqn:Hr.
  2:{ rewrite (run_exec _ _ _ _ _ _ (exec_read_fails _ _ _ _ Hv Hcfg e Hr)).
      discriminate. }
  destruct (client g) as [c|] eqn:Hc.
  2:{ rewrite (run_exec _ _ _ _ _ _
                 (exec_no_client _ _ _ _ Hv Hcfg file_bytes Hr Hc)).
      discriminate. }
  destruct (files_upload c file_bytes (content_type resume_file))
    as [h|e] eqn:Hu.
  - rewrite (run_uploaded g job_description job_title resume_file c
               file_bytes h (conj Hv (conj Hcfg (conj Hc (conj Hr Hu))))).
    cbn [fst]. destruct (files_delete c (name h)); [|discriminate].
    apply pending_outcome_score.
  - rewrite (run_exec _ _ _ _ _ _
               (exec_upload_fails _ _ _ _ Hv Hcfg c file_bytes Hc Hr e Hu)).
    discriminate.
Qed.

(** *** C3: mock mode *)

(** C3.  When building the client failed at process start, every request
    whose media type passes validation returns the same result, whatever
    the job title, the job description and the resume: [success] is true,
    [matchScore] is 75, [suggestions] is the fixed text of the source, which
    starts with the mock-data marker (a warning sign followed by the words
    MOCK DATA); no call to the AI service is made. *)
Theorem C3_mock_mode_result
  (py : Interpreter) (t : Types) (e : exn)
  (job_description job_title : str) (resume_file : UploadFile) :
  invalid_file_type (content_type resume_file) = false ->
  run (startup py t (Raise e)) job_description job_title resume_file
  = (Ok {| success := true;
           matchScore := PInt 75;
           suggestions :=
             PStr ([9888; 65039]%N ++
                   lit " MOCK DATA: Missing 'DevOps' and 'Kubernetes'. Add these to your experience section. (API Key not configured.)") |},
     []) /\
  exists rest,
    run (startup py t (Raise e)) job_description job_title resume_file
    = (Ok {| success := true;
             matchScore := PInt 75;
             suggestions :=
               PStr ([9888; 65039]%N ++ lit " MOCK DATA" ++ rest) |},
       []).
Proof.
  intros Hv.
  assert (H : run (startup py t (Raise e)) job_description job_title
                  resume_file = (Ok mock_result, [])).
  { apply (run_exec _ _ _ _ _ initial). now apply exec_mock. }
  rewrite H. split; [reflexivity|].
  eexists. reflexivity.
Qed.

(** C3 at a PDF upload, the client having failed on a missing key. *)
Lemma C3_witness :
  invalid_file_type (content_type sample_pdf) = false /\
  run (startup sample_interpreter sample_types
         (Raise (ValueError (lit "Missing key inputs argument!"))))
      (lit "Run the clusters.") (lit "SRE") sample_pdf
  = (Ok {| success := true;
           matchScore := PInt 75;
           suggestions :=
             PStr ([9888; 65039]%N ++
                   lit " MOCK DATA: Missing 'DevOps' and 'Kubernetes'. Add these to your experience section. (API Key not configured.)") |},
     []).
Proof.
  split; [reflexivity|].
  exact (proj1 (C3_mock_mode_result
                  sample_interpreter sample_types
                  (ValueError (lit "Missing key inputs argument!"))
                  (lit "Run the clusters.") (lit "SRE") sample_pdf
                  eq_refl)).
Defined.

(** *** C4: an answer that is not JSON *)

(** C4 as stated fails in four ways.  When the cleanup call raises: the
    answer is not JSON (with or without its fences stripped), the degraded
    result is computed, the deletion call raises, and the handler raises
    that error instead of returning.  On a text that is not JSON but that
    [json.loads] accepts, such as [NaN]: the decoded float has no [get],
    and the handler answers with the 500 response.  On a text that is not
    JSON as it stands but is once its fence markers are stripped: the
    handler returns the parsed result.  And on a text that is not JSON and
    nests deeper than the interpreter allows, such as 1200 opening
    brackets: [json.loads] raises [RecursionError], which the inner
    [except] does not catch, and the handler answers with the 500
    response. *)
Lemma C4_claim_fails :
  json_loads sample_interpreter unparsable_answer = Raise JSONDecodeError /\
  json_loads sample_interpreter (strip_fences unparsable_answer)
  = Raise JSONDecodeError /\
  sample_run (Ok unparsable_answer) (Raise cleanup_error)
  = (Raise cleanup_error, sample_calls) /\
  fst (sample_run (Ok unparsable_answer) (Raise cleanup_error))
  <> Ok (degraded_result unparsable_answer) /\
  sample_run (Ok (lit "NaN")) (Ok tt)
  = (Raise (HTTPException 500
              (service_error_detail
                 (AttributeError
                    (lit "'float' object has no attribute 'get'")))),
     sample_calls) /\
  json_loads sample_interpreter (fence_json ++ well_formed_answer ++ fence)
  = Raise JSONDecodeError /\
  sample_run (Ok (fence_json ++ well_formed_answer ++ fence)) (Ok tt)
  = (Ok well_formed_result, sample_calls) /\
  sample_run (Ok deep_answer) (Ok tt)
  = (Raise (HTTPException 500
              (service_error_detail
                 (RecursionError
                    (lit "maximum recursion depth exceeded while decoding a JSON array from a unicode string")))),
     sample_calls).
Proof.
  split; [vm_compute; reflexivity|]. split; [vm_compute; reflexivity|].
  rewrite sample_run_uploaded.
  split; [reflexivity|]. split; [discriminate|].
  repeat (split; [vm_compute; reflexivity|]). vm_compute. reflexivity.
Qed.

(** C4, amended.  For every answer of the model on whose text, once the
    fence markers are stripped, [json.loads] raises [JSONDecodeError] or
    [ValueError] (a syntax error, or an integer literal longer than the
    interpreter converts), and provided the cleanup deletion call returns
    normally, the handler returns [success] true, [matchScore] 50 and, as
    [suggestions], the parse-error marker followed by the first 200
    characters of the raw text and an ellipsis. *)
Theorem C4_unparsable_answer_degrades
  (g : Globals) (job_description job_title : str) (resume_file : UploadFile)
  (c : Client) (file_bytes : list Byte.byte) (h : File) (text : str)
  (e : exn) :
  upload_succeeded g resume_file c file_bytes h ->
  generation g c (generate_request job_title job_description h) = Ok text ->
  json_loads (interpreter g) (strip_fences text) = Raise e ->
  is_JSONDecodeError_or_ValueError e = true ->
  files_delete c (name h) = Ok tt ->
  run g job_description job_title resume_file =
  (Ok {| success := true;
         matchScore := PInt 50;
         suggestions :=
           PStr (lit "Error: Could not parse structured output from AI. Raw response: "
                 ++ slice_to 200 text ++ lit "...") |},
   live_calls file_bytes (content_type resume_file)
              (generate_request job_title job_description h) h).
Proof.
  intros Hlive Hg Hj He Hd.
  rewrite (run_answered _ _ _ _ _ _ _ Hlive text Hg Hd). f_equal.
  now apply (pending_caught _ text e).
Qed.

(** C4 (amended) at the sample request, with a refusal in plain words as
    the answer. *)
Lemma C4_witness :
  json_loads sample_interpreter (strip_fences unparsable_answer)
  = Raise JSONDecodeError /\
  sample_run (Ok unparsable_answer) (Ok tt)
  = (Ok {| success := true;
           matchScore := PInt 50;
           suggestions :=
             PStr (lit "Error: Could not parse structured output from AI. Raw response: "
                   ++ slice_to 200 unparsable_answer ++ lit "...") |},
     sample_calls).
Proof.
  assert (E : json_loads sample_interpreter (strip_fences unparsable_answer)
              = Raise JSONDecodeError)
    by (vm_compute; reflexivity).
  split; [exact E|].
  exact (C4_unparsable_answer_degrades
           (sample_globals (Ok unparsable_answer) (Ok tt))
           (lit "Run the clusters.") (lit "SRE") sample_pdf
           (sample_client (Ok unparsable_answer) (Ok tt))
           [Byte.x25; Byte.x50; Byte.x44; Byte.x46] sample_file
           unparsable_answer JSONDecodeError
           (sample_upload_succeeded _ _) eq_refl E eq_refl eq_refl).
Defined.

(** *** C5: an answer whose match score is invalid *)

(** C5 as stated fails in two ways: when the cleanup call raises, the
    handler raises instead of returning the degraded result; and a boolean
    is not treated as a parse failure but returned as the match score. *)
Lemma C5_claim_fails :
  sample_run (Ok out_of_range_answer) (Raise cleanup_error)
  = (Raise cleanup_error, sample_calls) /\
  fst (sample_run (Ok out_of_range_answer) (Raise cleanup_error))
  <> Ok (degraded_result out_of_range_answer) /\
  fst (sample_run (Ok boolean_score_answer) (Ok tt))
  = Ok {| success := true;
          matchScore := PBool true;
          suggestions := PStr (lit "ok") |}.
Proof.
  rewrite sample_run_uploaded.
  split; [reflexivity|]. split; [discriminate|vm_compute; reflexivity].
Qed.

(** C5, amended.  For every answer of the model that [json.loads] decodes
    (its fence markers stripped) to an object whose [matchScore] is neither
    an integer nor a boolean, or is an integer outside 0..100, and provided
    the cleanup deletion call returns normally, the handler returns exactly
    the result of a parse failure: [success] true, [matchScore] 50,
    [suggestions] made of the parse-error marker, the first 200 characters
    of the raw text and an ellipsis. *)
Theorem C5_invalid_score_degrades
  (g : Globals) (job_description job_title : str) (resume_file : UploadFile)
  (c : Client) (file_bytes : list Byte.byte) (h : File)
  (text : str) (d : list (str * pyval)) (v : pyval) :
  upload_succeeded g resume_file c file_bytes h ->
  generation g c (generate_request job_title job_description h) = Ok text ->
  json_loads (interpreter g) (strip_fences text) = Ok (PDict d) ->
  dict_lookup (lit "matchScore") d = Some v ->
  not_int_nor_bool v \/ out_of_range v ->
  files_delete c (name h) = Ok tt ->
  run g job_description job_title resume_file =
  (Ok {| success := true;
         matchScore := PInt 50;
         suggestions :=
           PStr (lit "Error: Could not parse structured output from AI. Raw response: "
                 ++ slice_to 200 text ++ lit "...") |},
   live_calls file_bytes (content_type resume_file)
              (generate_request job_title job_description h) h).
Proof.
  intros Hlive Hg Hj Hv Hw Hd.
  rewrite (run_answered _ _ _ _ _ _ _ Hlive text Hg Hd).
  rewrite (pending_dict _ text d Hj).
  unfold fields_of. rewrite (dict_get_found _ _ _ _ Hv).
  now rewrite (score_invalid_wrong v Hw).
Qed.

(** C5 (amended) at the sample request, with a score of 150. *)
Lemma C5_witness :
  json_loads sample_interpreter (strip_fences out_of_range_answer)
  = Ok (PDict [(lit "matchScore", PInt 150);
               (lit "suggestions", PStr (lit "..."))]) /\
  out_of_range (PInt 150) /\
  sample_run (Ok out_of_range_answer) (Ok tt)
  = (Ok {| success := true;
           matchScore := PInt 50;
           suggestions :=
             PStr (lit "Error: Could not parse structured output from AI. Raw response: "
                   ++ slice_to 200 out_of_range_answer ++ lit "...") |},
     sample_calls).
Proof.
  assert (Hj : json_loads sample_interpreter
                 (strip_fences out_of_range_answer)
               = Ok (PDict [(lit "matchScore", PInt 150);
                            (lit "suggestions", PStr (lit "..."))]))
    by (vm_compute; reflexivity).
  assert (Hw : out_of_range (PInt 150))
    by (exists 150%Z; split; [reflexivity|right; lia]).
  split; [exact Hj|]. split; [exact Hw|].
  exact (C5_invalid_score_degrades
           (sample_globals (Ok out_of_range_answer) (Ok tt))
           (lit "Run the clusters.") (lit "SRE") sample_pdf
           (sample_client (Ok out_of_range_answer) (Ok tt))
           [Byte.x25; Byte.x50; Byte.x44; Byte.x46] sample_file
           out_of_range_answer _ (PInt 150)
           (sample_upload_succeeded _ _)
           eq_refl Hj eq_refl (or_intror Hw) eq_refl).
Defined.

(** *** C6: a well-formed answer *)

(** C6 as stated fails when the cleanup call raises: the answer is the
    well-formed object, the result is computed, the deletion call raises,
    and the handler raises that error instead of returning the result. *)
Lemma C6_cleanup_failure_raises :
  sample_run (Ok well_formed_answer) (Raise cleanup_error)
  = (Raise cleanup_error, sample_calls) /\
  fst (sample_run (Ok well_formed_answer) (Raise cleanup_error))
  <> Ok well_formed_result.
Proof.
  rewrite sample_run_uploaded. split; [reflexivity|discriminate].
Qed.

(** C6, amended.  Provided the cleanup deletion call returns normally:
    for the well-formed answer with a match score of 88 and the suggestions
    [add X], bare or between the fence markers, the handler returns
    [success] true, [matchScore] 88 and [suggestions] [add X]; and for every
    answer that [json.loads] decodes to an object, a missing [matchScore]
    key gives a returned [matchScore] of 0, and a missing [suggestions] key
    gives (when the match score passes validation) the fixed text [No
    detailed suggestions provided by AI.] as the returned [suggestions]. *)
Theorem C6_well_formed_answer
  (g : Globals) (job_description job_title : str) (resume_file : UploadFile)
  (c : Client) (file_bytes : list Byte.byte) (h : File) :
  upload_succeeded g resume_file c file_bytes h ->
  files_delete c (name h) = Ok tt ->
  (forall text,
     In text well_formed_variants ->
     generation g c (generate_request job_title job_description h)
     = Ok text ->
     run g job_description job_title resume_file =
     (Ok {| success := true;
            matchScore := PInt 88;
            suggestions := PStr (lit "add X") |},
      live_calls file_bytes (content_type resume_file)
                 (generate_request job_title job_description h) h)) /\
  (forall text d,
     generation g c (generate_request job_title job_description h)
     = Ok text ->
     json_loads (interpreter g) (strip_fences text) = Ok (PDict d) ->
     (dict_lookup (lit "matchScore") d = None ->
      fst (run g job_description job_title resume_file) =
      Ok {| success := true;
            matchScore := PInt 0;
            suggestions :=
              dict_get d (lit "suggestions")
                (PStr (lit "No detailed suggestions provided by AI.")) |}) /\
     (dict_lookup (lit "suggestions") d = None ->
      score_invalid (dict_get d (lit "matchScore") (PInt 0)) = false ->
      fst (run g job_description job_title resume_file) =
      Ok {| success := true;
            matchScore := dict_get d (lit "matchScore") (PInt 0);
            suggestions :=
              PStr (lit "No detailed suggestions provided by AI.") |})).
Proof.
  intros Hlive Hd. split.
  - intros text Hin Hg.
    rewrite (run_answered _ _ _ _ _ _ _ Hlive text Hg Hd).
    now rewrite (pending_well_formed _ text Hin).
  - intros text d Hg Hj.
    rewrite (run_answered _ _ _ _ _ _ _ Hlive text Hg Hd).
    rewrite (pending_dict _ text d Hj).
    cbn [fst]. unfold fields_of. split.
    + intros Hm. now rewrite (dict_get_missing _ _ _ Hm).
    + intros Hs Hok. now rewrite Hok, (dict_get_missing _ _ _ Hs).
Qed.

(** C6 (amended) at the sample request, the answer standing between an
    opening json fence and a closing fence, each on its own line. *)
Lemma C6_witness :
  files_delete
    (sample_client
       (Ok (fence_json ++ [10%N] ++ well_formed_answer ++ [10%N] ++ fence))
       (Ok tt))
    (name sample_file) = Ok tt /\
  In (fence_json ++ [10%N] ++ well_formed_answer ++ [10%N] ++ fence)
     well_formed_variants /\
  sample_run
    (Ok (fence_json ++ [10%N] ++ well_formed_answer ++ [10%N] ++ fence))
    (Ok tt)
  = (Ok {| success := true;
           matchScore := PInt 88;
           suggestions := PStr (lit "add X") |},
     sample_calls).
Proof.
  split; [reflexivity|]. split; [right; left; reflexivity|].
  exact (proj1 (C6_well_formed_answer
                  (sample_globals
                     (Ok (fence_json ++ [10%N] ++ well_formed_answer
                            ++ [10%N] ++ fence)) (Ok tt))
                  (lit "Run the clusters.") (lit "SRE") sample_pdf
                  (sample_client
                     (Ok (fence_json ++ [10%N] ++ well_formed_answer
                            ++ [10%N] ++ fence)) (Ok tt))
                  [Byte.x25; Byte.x50; Byte.x44; Byte.x46] sample_file
                  (sample_upload_succeeded _ _) eq_refl)
               _ (or_intror (or_introl eq_refl)) eq_refl).
Defined.

(** *** C7: validation of the declared media type *)

(** C7 as stated fails for a declared media type that is the empty
    string: it is present and starts with neither prefix, yet the source's
    test [file_mime_type and not ...] takes it for absent, and the request
    proceeds, to the mock result in mock mode and through the three calls
    in live mode. *)
Lemma C7_empty_type_not_rejected :
  content_type sample_empty_type = Some [] /\
  startswith pdf_prefix [] = false /\
  startswith docx_prefix [] = false /\
  run (startup sample_interpreter sample_types
         (Raise (ValueError (lit "Missing key inputs argument!"))))
      (lit "Run the clusters.") (lit "SRE") sample_empty_type
  = (Ok mock_result, []) /\
  run (sample_globals (Ok well_formed_answer) (Ok tt))
      (lit "Run the clusters.") (lit "SRE") sample_empty_type
  = (Ok well_formed_result,
     live_calls [Byte.x25; Byte.x50; Byte.x44; Byte.x46] (Some [])
                sample_request sample_file).
Proof. repeat (split; [vm_compute; reflexivity|]). vm_compute. reflexivity. Qed.

(** C7, amended.  For every upload whose declared media type is present
    and not empty and starts with neither the PDF prefix nor the Office
    Open XML word-processing prefix, the handler fails with status 400 and
    makes no call to the AI service, in live and in mock mode alike.  For
    every upload whose declared media type is absent or is the empty
    string, validation is skipped and the request proceeds: to the mock
    result in mock mode, to the upload call in live mode. *)
Theorem C7_media_type_validation
  (g : Globals) (job_description job_title : str) (resume_file : UploadFile) :
  (forall t,
     content_type resume_file = Some t -> t <> [] ->
     startswith pdf_prefix t = false -> startswith docx_prefix t = false ->
     run g job_description job_title resume_file
     = (Raise (HTTPException 400 invalid_file_type_detail), [])) /\
  (content_type resume_file = None \/ content_type resume_file = Some [] ->
   invalid_file_type (content_type resume_file) = false /\
   (GEMINI_CONFIGURED g = false ->
    run g job_description job_title resume_file = (Ok mock_result, [])) /\
   (GEMINI_CONFIGURED g = true ->
    forall c file_bytes,
      client g = Some c -> read resume_file = Ok file_bytes ->
      exists rest,
        snd (run g job_description job_title resume_file)
        = CallUpload file_bytes (content_type resume_file) :: rest)).
Proof.
  split.
  - intros t Ht Hne Hp Hd. apply (run_exec _ _ _ _ _ initial).
    apply exec_invalid_type.
    rewrite Ht, invalid_file_type_declared by exact Hne.
    now rewrite Hp, Hd.
  - intros Habs.
    assert (Hv : invalid_file_type (content_type resume_file) = false)
      by (destruct Habs as [-> | ->]; reflexivity).
    split; [exact Hv|]. split.
    + intros Hm. apply (run_exec _ _ _ _ _ initial). now apply exec_mock.
    + intros Hcfg c file_bytes Hc Hr.
      destruct (files_upload c file_bytes (content_type resume_file))
        as [h|e] eqn:Hu.
      * erewrite run_exec
          by (apply (exec_uploaded _ _ _ _ Hv Hcfg c file_bytes Hc Hr h Hu)).
        cbn [snd calls]. unfold calls_after_upload, live_calls.
        destruct (build_request _ _); eauto.
      * erewrite run_exec
          by (apply (exec_upload_fails _ _ _ _ Hv Hcfg c file_bytes Hc Hr
                       e Hu)).
        cbn. eauto.
Qed.

(** C7 (amended) at an upload declared as a PNG image, rejected without
    any call, and at an upload without a declared type, accepted. *)
Lemma C7_witness :
  (content_type sample_png = Some (lit "image/png") /\
   lit "image/png" <> [] /\
   startswith pdf_prefix (lit "image/png") = false /\
   startswith docx_prefix (lit "image/png") = false /\
   run (sample_globals (Ok well_formed_answer) (Ok tt))
       (lit "Run the clusters.") (lit "SRE") sample_png
   = (Raise (HTTPException 400 invalid_file_type_detail), [])) /\
  (content_type sample_untyped = None /\
   invalid_file_type (content_type sample_untyped) = false).
Proof.
  split.
  - split; [reflexivity|]. split; [discriminate|].
    split; [reflexivity|]. split; [reflexivity|].
    apply (proj1 (C7_media_type_validation
                    (sample_globals (Ok well_formed_answer) (Ok tt))
                    (lit "Run the clusters.") (lit "SRE") sample_png)
             (lit "image/png")); try reflexivity; discriminate.
  - split; [reflexivity|].
    apply (proj2 (C7_media_type_validation
                    (sample_globals (Ok well_formed_answer) (Ok tt))
                    (lit "Run the clusters.") (lit "SRE") sample_untyped)).
    now left.
Defined.

(** *** C8: a failing upload or generation call *)

(** C8 as stated fails when the cleanup call raises too: the generation
    call raises, the 500 response is prepared, the deletion call raises,
    and the handler raises the deletion error, whose text does not include
    the text of the generation error. *)
Lemma C8_cleanup_failure_masks_500 :
  sample_run (Raise quota_error) (Raise cleanup_error)
  = (Raise cleanup_error, sample_calls) /\
  fst (sample_run (Raise quota_error) (Raise cleanup_error))
  <> Raise (HTTPException 500 (service_error_detail quota_error)) /\
  contains (exn_str quota_error) (exn_str cleanup_error) = false.
Proof.
  rewrite sample_run_uploaded.
  split; [reflexivity|]. split; [discriminate|vm_compute; reflexivity].
Qed.

(** C8, amended.  When the upload call raises, the handler responds with
    status 500 and a detail that includes the text of the error, and issues
    no deletion call.  When the generation step raises (the call itself,
    or a constructor of [types] while the arguments of the call are built),
    the handler issues the deletion call for the handle created before the
    failure, exactly once, and, provided that deletion call returns
    normally, responds with status 500 and a detail that includes the text
    of the error. *)
Theorem C8_service_failure_is_500
  (g : Globals) (job_description job_title : str) (resume_file : UploadFile)
  (c : Client) (file_bytes : list Byte.byte) :
  invalid_file_type (content_type resume_file) = false ->
  GEMINI_CONFIGURED g = true ->
  client g = Some c ->
  read resume_file = Ok file_bytes ->
  (forall e,
     files_upload c file_bytes (content_type resume_file) = Raise e ->
     run g job_description job_title resume_file =
     (Raise (HTTPException 500 (service_error_detail e)),
      [CallUpload file_bytes (content_type resume_file)]) /\
     contains (exn_str e) (service_error_detail e) = true) /\
  (forall h e,
     files_upload c file_bytes (content_type resume_file) = Ok h ->
     generation g c (generate_request job_title job_description h)
     = Raise e ->
     deletions (snd (run g job_description job_title resume_file))
     = [name h] /\
     contains (exn_str e) (service_error_detail e) = true /\
     (files_delete c (name h) = Ok tt ->
      fst (run g job_description job_title resume_file) =
      Raise (HTTPException 500 (service_error_detail e)))).
Proof.
  intros Hv Hcfg Hc Hr. split.
  - intros e Hu. split; [|apply service_error_detail_text].
    apply (run_exec _ _ _ _ _ _
             (exec_upload_fails _ _ _ _ Hv Hcfg c file_bytes Hc Hr e Hu)).
  - intros h e Hu Hg.
    rewrite (run_uploaded g job_description job_title resume_file c
               file_bytes h (conj Hv (conj Hcfg (conj Hc (conj Hr Hu))))).
    rewrite Hg. cbn [fst snd].
    split; [apply deletions_after_upload|].
    split; [apply service_error_detail_text|].
    now intros ->.
Qed.

(** C8 (amended) at the sample request, the generation call failing on
    quota. *)
Lemma C8_witness :
  models_generate_content (sample_client (Raise quota_error) (Ok tt))
                          sample_request = Raise quota_error /\
  fst (sample_run (Raise quota_error) (Ok tt))
  = Raise (HTTPException 500 (service_error_detail quota_error)) /\
  deletions (snd (sample_run (Raise quota_error) (Ok tt)))
  = [name sample_file].
Proof.
  split; [reflexivity|].
  destruct (proj2 (C8_service_failure_is_500
                     (sample_globals (Raise quota_error) (Ok tt))
                     (lit "Run the clusters.") (lit "SRE") sample_pdf
                     (sample_client (Raise quota_error) (Ok tt))
                     [Byte.x25; Byte.x50; Byte.x44; Byte.x46]
                     eq_refl eq_refl eq_refl eq_refl)
                  sample_file quota_error eq_refl eq_refl)
    as (Hdel & _ & H500).
  split; [exact (H500 eq_refl)|exact Hdel].
Defined.

(** *** C9: a failing cleanup call *)

(** C9.  For every request in which the cleanup deletion call raises, the
    handler raises that very error, whatever the generation call did: it
    returns no Analysis Result, neither a successful nor a degraded one. *)
Theorem C9_cleanup_failure_propagates
  (g : Globals) (job_description job_title : str) (resume_file : UploadFile)
  (c : Client) (file_bytes : list Byte.byte) (h : File) (e : exn) :
  upload_succeeded g resume_file c file_bytes h ->
  files_delete c (name h) = Raise e ->
  fst (run g job_description job_title resume_file) = Raise e /\
  (forall r : AnalysisResult,
     fst (run g job_description job_title resume_file) <> Ok r) /\
  deletions (snd (run g job_description job_title resume_file)) = [name h].
Proof.
  intros Hlive Hd.
  rewrite (run_uploaded _ _ _ _ _ _ _ Hlive).
  cbn [fst snd]. rewrite Hd. cbn [settle].
  split; [reflexivity|].
  split; [intros r; discriminate|apply deletions_after_upload].
Qed.

(** C9 at the sample request: a valid answer with a score of 88 was
    parsed, and the failure of the deletion call is what the handler
    raises. *)
Lemma C9_witness :
  files_delete (sample_client (Ok well_formed_answer) (Raise cleanup_error))
               (name sample_file)
  = Raise cleanup_error /\
  pending_outcome sample_interpreter (Ok well_formed_answer)
  = Ok well_formed_result /\
  fst (sample_run (Ok well_formed_answer) (Raise cleanup_error))
  = Raise cleanup_error.
Proof.
  split; [reflexivity|]. split; [vm_compute; reflexivity|].
  apply (C9_cleanup_failure_propagates
           (sample_globals (Ok well_formed_answer) (Raise cleanup_error))
           (lit "Run the clusters.") (lit "SRE") sample_pdf
           (sample_client (Ok well_formed_answer) (Raise cleanup_error))
           [Byte.x25; Byte.x50; Byte.x44; Byte.x46] sample_file
           cleanup_error (sample_upload_succeeded _ _) eq_refl).
Defined.

(** *** C10: fence markers inside the suggestions *)

(** C10 as stated fails: backticks written as the JSON escape
    [escaped_backtick] pass the stripping untouched and are decoded by the
    parser, so the returned suggestions can hold both fence markers.  The
    escape need not even stand in the raw text: it can appear when the
    stripping removes fence markers written inside it. *)
Lemma C10_escaped_backticks_survive :
  sample_run (Ok escaped_fence_answer) (Ok tt) =
  (Ok {| success := true;
         matchScore := PInt 5;
         suggestions := PStr fence_json |},
   sample_calls) /\
  contains fence fence_json = true /\
  contains fence_json fence_json = true /\
  contains escaped_backtick split_escape_answer = false /\
  sample_run (Ok split_escape_answer) (Ok tt) =
  (Ok {| success := true;
         matchScore := PInt 5;
         suggestions := PStr fence |},
   sample_calls).
Proof.
  split; [vm_compute; reflexivity|]. split; [vm_compute; reflexivity|].
  split; [vm_compute; reflexivity|]. split; vm_compute; reflexivity.
Qed.

(** C10, amended.  On the backend-configured path, the text handed to the
    JSON parser never contains either fence marker: the stripping removes
    every occurrence written in the raw text of the model, also inside the
    suggestions value.  Hence, with a successfully parsed answer, the
    returned suggestions string contains neither marker unless the text
    handed to the parser contains the escape [escaped_backtick]: every
    other escape (a line feed, a quotation mark, any other code point) is
    allowed. *)
Theorem C10_fences_removed_before_parsing
  (g : Globals) (job_description job_title : str) (resume_file : UploadFile)
  (c : Client) (file_bytes : list Byte.byte) (h : File) (text : str) :
  upload_succeeded g resume_file c file_bytes h ->
  generation g c (generate_request job_title job_description h) = Ok text ->
  contains (lit "```") (strip_fences text) = false /\
  contains (lit "```json") (strip_fences text) = false /\
  (forall d res x,
     json_loads (interpreter g) (strip_fences text) = Ok (PDict d) ->
     score_invalid (dict_get d (lit "matchScore") (PInt 0)) = false ->
     fst (run g job_description job_title resume_file) = Ok res ->
     suggestions res = PStr x ->
     contains (lit "\u0060") (strip_fences text) = false ->
     contains (lit "```") x = false /\ contains (lit "```json") x = false).
Proof.
  intros Hlive Hg.
  destruct (strip_fences_clean text) as [Hf Hj].
  split; [exact Hf|]. split; [exact Hj|].
  intros d res x Hl Hok Hres Hs Hb.
  rewrite (run_uploaded _ _ _ _ _ _ _ Hlive), Hg in Hres.
  cbn [fst] in Hres.
  destruct (files_delete c (name h)); [|discriminate Hres].
  cbn [settle] in Hres.
  rewrite (pending_dict _ text d Hl) in Hres. unfold fields_of in Hres.
  rewrite Hok in Hres. cbn [fst snd] in Hres.
  inversion Hres; subst res; clear Hres. cbn [suggestions] in Hs.
  assert (Hx : contains fence x = false).
  { unfold dict_get in Hs.
    destruct (dict_lookup (lit "suggestions") d) as [v|] eqn:El.
    - subst v.
      exact (json_loads_clean (strip_fences text) Hf Hb (interpreter g) d Hl
               (lit "suggestions") x El).
    - inversion Hs. reflexivity. }
  split; [exact Hx|].
  change (contains fence_json x = false).
  destruct (contains fence_json x) eqn:E; [|reflexivity].
  apply contains_fence_json in E.
  change (contains fence x = true) in E. congruence.
Qed.

(** C10 (amended) at the sample request: the answer holds a line feed
    written as an escape; the fences written around a word of the
    suggestions are deleted from the returned text. *)
Lemma C10_witness :
  contains (lit "\u0060") (strip_fences newline_fence_answer) = false /\
  contains (lit "\n") newline_fence_answer = true /\
  fst (sample_run (Ok newline_fence_answer) (Ok tt)) =
  Ok {| success := true;
        matchScore := PInt 5;
        suggestions := PStr (lit "use code" ++ [10%N] ++ lit "here") |} /\
  contains (lit "```") (lit "use code" ++ [10%N] ++ lit "here") = false /\
  contains (lit "```json") (lit "use code" ++ [10%N] ++ lit "here") = false.
Proof.
  assert (Hb : contains (lit "\u0060") (strip_fences newline_fence_answer)
               = false) by (vm_compute; reflexivity).
  assert (Hr : fst (sample_run (Ok newline_fence_answer) (Ok tt)) =
               Ok {| success := true;
                     matchScore := PInt 5;
                     suggestions :=
                       PStr (lit "use code" ++ [10%N] ++ lit "here") |})
    by (vm_compute; reflexivity).
  split; [exact Hb|]. split; [vm_compute; reflexivity|]. split; [exact Hr|].
  exact (proj2 (proj2
           (C10_fences_removed_before_parsing
              (sample_globals (Ok newline_fence_answer) (Ok tt))
              (lit "Run the clusters.") (lit "SRE") sample_pdf
              (sample_client (Ok newline_fence_answer) (Ok tt))
              [Byte.x25; Byte.x50; Byte.x44; Byte.x46] sample_file
              newline_fence_answer
              (sample_upload_succeeded _ _) eq_refl))
           [(lit "matchScore", PInt 5);
            (lit "suggestions",
             PStr (lit "use code" ++ [10%N] ++ lit "here"))]
           _ (lit "use code" ++ [10%N] ++ lit "here")
           ltac:(vm_compute; reflexivity) eq_refl Hr eq_refl Hb).
Defined.

(* ===================================================================== *)
(** ** Worked examples *)
(* ===================================================================== *)

Example strip_ex : strip (lit "  ab c ") = lit "ab c".
Proof. reflexivity. Qed.

Example replace_ex :
  replace fence [] (lit "a````b```c``") = lit "a`bc``".
Proof. reflexivity. Qed.

Example strip_fences_ex :
  strip_fences (fence_json ++ [10%N] ++ well_formed_answer ++ [10%N] ++ fence)
  = [10%N] ++ well_formed_answer ++ [10%N].
Proof. vm_compute. reflexivity. Qed.

Example json_loads_ex :
  json_loads sample_interpreter
    (qlit "{'a': [1, -2.5e3, true, null], 'b': 'xAy'}")
  = Ok (PDict [(lit "a", PList [PInt 1; PFloat (FLiteral (lit "-2.5e3"));
                                PBool true; PNone]);
               (lit "b", PStr (lit "xAy"))]).
Proof. vm_compute. reflexivity. Qed.

Example json_loads_surrogate_pair :
  json_loads sample_interpreter (qlit "'\ud83d\ude00 \u0060'")
  = Ok (PStr [128512; 32; 96]%N).
Proof. vm_compute. reflexivity. Qed.

Example json_loads_constants :
  json_loads sample_interpreter (lit "[NaN, Infinity, -Infinity]")
  = Ok (PList [PFloat FNaN; PFloat FInfinity; PFloat FNegInfinity]).
Proof. vm_compute. reflexivity. Qed.

Example json_loads_rejects :
  map (json_loads sample_interpreter)
      [lit "01"; lit "[1,]"; qlit "{'a': 1,}"; qlit "{a: 1}";
       lit "1 2"; lit "-"; lit "1."; qlit "'abc"; lit ""]
  = repeat (Raise JSONDecodeError) 9.
Proof. vm_compute. reflexivity. Qed.

Example json_loads_duplicate_key :
  json_loads sample_interpreter (qlit "{'matchScore': 700, 'matchScore': 7}")
  = Ok (PDict [(lit "matchScore", PInt 7)]).
Proof. vm_compute. reflexivity. Qed.

(** The limits of the interpreter: 994 nested arrays are decoded and 995
    are not; a literal of 4300 digits is converted and one of 4301 is
    not. *)
Example json_loads_nesting_limit :
  (exists v,
     json_loads sample_interpreter (repeat 91%N 994 ++ repeat 93%N 994)
     = Ok v) /\
  json_loads sample_interpreter (repeat 91%N 995 ++ repeat 93%N 995)
  = Raise (RecursionError
             (lit "maximum recursion depth exceeded while decoding a JSON array from a unicode string")).
Proof. split; [eexists|]; vm_compute; reflexivity. Qed.

Example json_loads_digit_limit :
  (exists z, json_loads sample_interpreter (repeat 49%N 4300) = Ok (PInt z)) /\
  json_loads sample_interpreter (repeat 49%N 4301)
  = Raise (ValueError
             (lit "Exceeds the limit (4300 digits) for integer string conversion: value has 4301 digits; use sys.set_int_max_str_digits() to increase the limit")).
Proof. split; [eexists|]; vm_compute; reflexivity. Qed.

(** Just below the limit a syntax error cannot be reported: building the
    [JSONDecodeError] takes three levels of recursion. *)
Example json_loads_error_near_limit :
  map (json_loads sample_interpreter)
      [repeat 91%N 991 ++ lit "1 x";
       repeat 91%N 992 ++ lit "1 x";
       repeat 91%N 993 ++ lit "1 x";
       repeat 91%N 994 ++ lit "1 x";
       repeat 91%N 994 ++ lit "x"]
  = [Raise JSONDecodeError;
     Raise (RecursionError
              (lit "maximum recursion depth exceeded while calling a Python object"));
     Raise (RecursionError (lit "maximum recursion depth exceeded"));
     Raise (RecursionError
              (lit "maximum recursion depth exceeded while calling a Python object"));
     Raise JSONDecodeError].
Proof. vm_compute. reflexivity. Qed.

(** A JSON text that is not an object has no [get]: the request ends with
    the 500 response, after the deletion call. *)
Example run_list_answer :
  sample_run (Ok (lit "[1, 2]")) (Ok tt) =
  (Raise (HTTPException 500
            (service_error_detail
               (AttributeError
                  (lit "'list' object has no attribute 'get'")))),
   sample_calls).
Proof. vm_compute. reflexivity. Qed.

(** The three exits of a live request, each with its one deletion call. *)
Example run_normal_return :
  sample_run (Ok well_formed_answer) (Ok tt)
  = (Ok well_formed_result, sample_calls).
Proof. vm_compute. reflexivity. Qed.

Example run_degraded_return :
  sample_run (Ok unparsable_answer) (Ok tt)
  = (Ok (degraded_result unparsable_answer), sample_calls).
Proof. vm_compute. reflexivity. Qed.

Example run_exception_exit :
  sample_run (Raise quota_error) (Ok tt)
  = (Raise (HTTPException 500 (service_error_detail quota_error)),
     sample_calls).
Proof. vm_compute. reflexivity. Qed.

(** An object that holds an integer of 4301 digits is not decoded: the
    [ValueError] of [int] is caught, and the result is the degraded one. *)
Example run_long_integer :
  sample_run (Ok long_integer_answer) (Ok tt)
  = (Ok (degraded_result long_integer_answer), sample_calls).
Proof. vm_compute. reflexivity. Qed.

(** When [Part.from_text] raises, [generate_content] is never called: the
    calls are the upload and the deletion. *)
Example run_request_not_built :
  run (startup sample_interpreter (failing_types constructor_error)
         (Ok (sample_client (Ok well_formed_answer) (Ok tt))))
      (lit "Run the clusters.") (lit "SRE") sample_pdf
  = (Raise (HTTPException 500 (service_error_detail constructor_error)),
     [CallUpload [Byte.x25; Byte.x50; Byte.x44; Byte.x46]
                 (Some (lit "application/pdf"));
      CallDelete (lit "files/r3sum3")]).
Proof. vm_compute. reflexivity. Qed.

(* ===================================================================== *)
(** ** Further properties of the handler *)
(* ===================================================================== *)

(** X1.  An answer that [json.loads] decodes to a value other than an
    object (a list, a number, a string, a boolean, null) is not degraded:
    [get] raises [AttributeError], which the inner [except] does not catch.
    The deletion call is issued once, and, when it returns normally, the
    handler answers with status 500 and the text of that error. *)
Theorem non_object_answer_is_500
  (g : Globals) (job_description job_title : str) (resume_file : UploadFile)
  (c : Client) (file_bytes : list Byte.byte) (h : File)
  (text : str) (v : pyval) :
  upload_succeeded g resume_file c file_bytes h ->
  generation g c (generate_request job_title job_description h) = Ok text ->
  json_loads (interpreter g) (strip_fences text) = Ok v ->
  (forall d, v <> PDict d) ->
  deletions (snd (run g job_description job_title resume_file)) = [name h] /\
  (files_delete c (name h) = Ok tt ->
   fst (run g job_description job_title resume_file) =
   Raise (HTTPException 500
            (lit "AI Service Error: Failed to process file. Check API keys and Vercel logs. Error: "
             ++ lit "'" ++ type_name v
             ++ lit "' object has no attribute 'get'"))).
Proof.
  intros Hlive Hg Hj Hv.
  rewrite (run_uploaded _ _ _ _ _ _ _ Hlive), Hg.
  rewrite (pending_not_object _ text v Hj Hv). cbn [fst snd].
  split; [apply deletions_after_upload|]. now intros ->.
Qed.

Lemma non_object_answer_witness :
  json_loads sample_interpreter (strip_fences (lit "[88, 2]"))
  = Ok (PList [PInt 88; PInt 2]) /\
  fst (sample_run (Ok (lit "[88, 2]")) (Ok tt)) =
  Raise (HTTPException 500
           (lit "AI Service Error: Failed to process file. Check API keys and Vercel logs. Error: "
            ++ lit "'" ++ lit "list"
            ++ lit "' object has no attribute 'get'")).
Proof.
  assert (Hj : json_loads sample_interpreter (strip_fences (lit "[88, 2]"))
               = Ok (PList [PInt 88; PInt 2]))
    by (vm_compute; reflexivity).
  split; [exact Hj|].
  refine (proj2 (non_object_answer_is_500
                   (sample_globals (Ok (lit "[88, 2]")) (Ok tt))
                   (lit "Run the clusters.") (lit "SRE") sample_pdf
                   (sample_client (Ok (lit "[88, 2]")) (Ok tt))
                   [Byte.x25; Byte.x50; Byte.x44; Byte.x46] sample_file
                   (lit "[88, 2]") _
                   (sample_upload_succeeded _ _) eq_refl Hj _) eq_refl).
  intros d; discriminate.
Defined.

(** X2.  Once the upload, the generation step and the deletion call have
    succeeded, the handler returns a result exactly when [json.loads], on
    the answer with its fences stripped, raises [JSONDecodeError] or
    [ValueError], or returns an object.  In every other case (another
    decoded value, a [RecursionError]) the handler raises. *)
Theorem live_request_returns_iff
  (g : Globals) (job_description job_title : str) (resume_file : UploadFile)
  (c : Client) (file_bytes : list Byte.byte) (h : File) (text : str) :
  upload_succeeded g resume_file c file_bytes h ->
  generation g c (generate_request job_title job_description h) = Ok text ->
  files_delete c (name h) = Ok tt ->
  ((exists res, fst (run g job_description job_title resume_file) = Ok res)
   <->
   ((exists e, json_loads (interpreter g) (strip_fences text) = Raise e /\
               is_JSONDecodeError_or_ValueError e = true) \/
    exists d, json_loads (interpreter g) (strip_fences text) = Ok (PDict d))).
Proof.
  intros Hlive Hg Hd.
  rewrite (run_answered _ _ _ _ _ _ _ Hlive text Hg Hd). cbn [fst].
  destruct (pending_outcome_cases (interpreter g) text)
    as [(e & Hj & He & ->)|[(d & Hj & ->)|(e & -> & Hj)]].
  - split; eauto.
  - split; eauto.
  - split; [intros [res H]; discriminate H|].
    intros [(e' & Hj' & He')|(d & Hj')];
      destruct Hj as [[Hj He]|(v & Hj & Hv & _)]; rewrite Hj in Hj'.
    + inversion Hj'; subst e'. congruence.
    + discriminate Hj'.
    + discriminate Hj'.
    + inversion Hj'; subst v. now elim (Hv d).
Qed.

Lemma live_request_returns_witness :
  json_loads sample_interpreter (strip_fences unparsable_answer)
  = Raise JSONDecodeError /\
  exists res, fst (sample_run (Ok unparsable_answer) (Ok tt)) = Ok res.
Proof.
  assert (E : json_loads sample_interpreter (strip_fences unparsable_answer)
              = Raise JSONDecodeError)
    by (vm_compute; reflexivity).
  split; [exact E|].
  exact (proj2 (live_request_returns_iff
                  (sample_globals (Ok unparsable_answer) (Ok tt))
                  (lit "Run the clusters.") (lit "SRE") sample_pdf
                  (sample_client (Ok unparsable_answer) (Ok tt))
                  [Byte.x25; Byte.x50; Byte.x44; Byte.x46] sample_file
                  unparsable_answer
                  (sample_upload_succeeded _ _) eq_refl eq_refl)
               (or_introl (ex_intro _ JSONDecodeError (conj E eq_refl)))).
Defined.

(** X3.  Whatever the request and the service do, the calls made to the AI
    service are none; or the upload alone, when it raises; or the upload and
    the deletion, when a constructor of [types] raises while the generation
    request is built; or the upload, the generation and the deletion, in
    that order.  The upload carries the bytes read and the declared media
    type, the file deleted is the one the upload returned, and it is the
    file handed to the generation call. *)
Theorem calls_shape
  (g : Globals) (job_description job_title : str) (resume_file : UploadFile) :
  let cs := snd (run g job_description job_title resume_file) in
  cs = [] \/
  (exists c file_bytes e,
     client g = Some c /\ read resume_file = Ok file_bytes /\
     files_upload c file_bytes (content_type resume_file) = Raise e /\
     cs = [CallUpload file_bytes (content_type resume_file)]) \/
  (exists c file_bytes h e,
     client g = Some c /\ read resume_file = Ok file_bytes /\
     files_upload c file_bytes (content_type resume_file) = Ok h /\
     build_request (types g) (generate_request job_title job_description h)
     = Raise e /\
     cs = [CallUpload file_bytes (content_type resume_file);
           CallDelete (name h)]) \/
  (exists c file_bytes h,
     client g = Some c /\ read resume_file = Ok file_bytes /\
     files_upload c file_bytes (content_type resume_file) = Ok h /\
     build_request (types g) (generate_request job_title job_description h)
     = Ok tt /\
     cs = [CallUpload file_bytes (content_type resume_file);
           CallGenerate (generate_request job_title job_description h);
           CallDelete (name h)]).
Proof.
  cbv zeta.
  destruct (invalid_file_type (content_type resume_file)) eqn:Hv.
  { rewrite (run_exec _ _ _ _ _ _ (exec_invalid_type _ _ _ _ Hv)). now left. }
  destruct (GEMINI_CONFIGURED g) eqn:Hcfg.
  2:{ rewrite (run_exec _ _ _ _ _ _ (exec_mock _ _ _ _ Hv Hcfg)). now left. }
  destruct (read resume_file) as [file_bytes|e] eqn:Hr.
  2:{ rewrite (run_exec _ _ _ _ _ _ (exec_read_fails _ _ _ _ Hv Hcfg e Hr)).
      now left. }
  destruct (client g) as [c|] eqn:Hc.
  2:{ rewrite (run_exec _ _ _ _ _ _
                 (exec_no_client _ _ _ _ Hv Hcfg file_bytes Hr Hc)).
      now left. }
  destruct (files_upload c file_bytes (content_type resume_file))
    as [h|e] eqn:Hu.
  - rewrite (run_uploaded g job_description job_title resume_file c
               file_bytes h (conj Hv (conj Hcfg (conj Hc (conj Hr Hu))))).
    cbn [snd]. unfold calls_after_upload, live_calls.
    destruct (build_request (types g)
                (generate_request job_title job_description h))
      as [[]|e] eqn:Hb.
    + right. right. right. exists c, file_bytes, h. now repeat split.
    + right. right. left. exists c, file_bytes, h, e. now repeat split.
  - rewrite (run_exec _ _ _ _ _ _
               (exec_upload_fails _ _ _ _ Hv Hcfg c file_bytes Hc Hr e Hu)).
    right. left. exists c, file_bytes, e. now repeat split.
Qed.

(** X4.  Every result the handler returns has [success] true, and is
    either the mock result (backend not configured), or was built from the
    text that the generation step answered on the handle that the upload
    returned, the deletion call having returned normally: it is then the
    degraded result of that text, or the two fields looked up in the object
    decoded from it, the match score having passed validation. *)
Theorem returned_result_shape
  (g : Globals) (job_description job_title : str) (resume_file : UploadFile)
  (res : AnalysisResult) :
  fst (run g job_description job_title resume_file) = Ok res ->
  success res = true /\
  (res = mock_result /\ GEMINI_CONFIGURED g = false \/
   exists c file_bytes h text,
     upload_succeeded g resume_file c file_bytes h /\
     generation g c (generate_request job_title job_description h)
     = Ok text /\
     files_delete c (name h) = Ok tt /\
     (res = degraded_result text /\
      ((exists e, json_loads (interpreter g) (strip_fences text) = Raise e /\
                  is_JSONDecodeError_or_ValueError e = true) \/
       (exists d, json_loads (interpreter g) (strip_fences text)
                  = Ok (PDict d) /\
                  score_invalid (dict_get d (lit "matchScore") (PInt 0))
                  = true)) \/
      exists d,
        json_loads (interpreter g) (strip_fences text) = Ok (PDict d) /\
        score_invalid (dict_get d (lit "matchScore") (PInt 0)) = false /\
        res = {| success := true;
                 matchScore := dict_get d (lit "matchScore") (PInt 0);
                 suggestions :=
                   dict_get d (lit "suggestions") (PStr no_suggestions) |})).
Proof.
  destruct (invalid_file_type (content_type resume_file)) eqn:Hv.
  { rewrite (run_exec _ _ _ _ _ _ (exec_invalid_type _ _ _ _ Hv)).
    discriminate. }
  destruct (GEMINI_CONFIGURED g) eqn:Hcfg.
  2:{ rewrite (run_exec _ _ _ _ _ _ (exec_mock _ _ _ _ Hv Hcfg)).
      cbn [fst]. intros H; inversion H; subst res.
      split; [reflexivity|]. now left. }
  destruct (read resume_file) as [file_bytes|e] eqn:Hr.
  2:{ rewrite (run_exec _ _ _ _ _ _ (exec_read_fails _ _ _ _ Hv Hcfg e Hr)).
      discriminate. }
  destruct (client g) as [c|] eqn:Hc.
  2:{ rewrite (run_exec _ _ _ _ _ _
                 (exec_no_client _ _ _ _ Hv Hcfg file_bytes Hr Hc)).
      discriminate. }
  destruct (files_upload c file_bytes (content_type resume_file))
    as [h|e] eqn:Hu.
  2:{ rewrite (run_exec _ _ _ _ _ _
                 (exec_upload_fails _ _ _ _ Hv Hcfg c file_bytes Hc Hr e Hu)).
      discriminate. }
  assert (Hlive : upload_succeeded g resume_file c file_bytes h)
    by (now repeat split).
  rewrite (run_uploaded _ _ _ _ _ _ _ Hlive). cbn [fst].
  destruct (files_delete c (name h)) as [[]|e] eqn:Hd; [|discriminate].
  cbn [settle].
  destruct (generation g c (generate_request job_title job_description h))
    as [text|e] eqn:Hg; [|discriminate].
  intros H.
  assert (Hshape :
    res = degraded_result text /\
    ((exists e, json_loads (interpreter g) (strip_fences text) = Raise e /\
                is_JSONDecodeError_or_ValueError e = true) \/
     (exists d, json_loads (interpreter g) (strip_fences text)
                = Ok (PDict d) /\
                score_invalid (dict_get d (lit "matchScore") (PInt 0))
                = true)) \/
    exists d,
      json_loads (interpreter g) (strip_fences text) = Ok (PDict d) /\
      score_invalid (dict_get d (lit "matchScore") (PInt 0)) = false /\
      res = {| success := true;
               matchScore := dict_get d (lit "matchScore") (PInt 0);
               suggestions :=
                 dict_get d (lit "suggestions") (PStr no_suggestions) |}).
  { destruct (pending_outcome_cases (interpreter g) text)
      as [(e & Hj & He & E)|[(d & Hj & E)|(e & E & _)]];
      rewrite E in H; [| |discriminate H].
    - left. split; [now inversion H|]. left. now exists e.
    - unfold fields_of in H.
      destruct (score_invalid (dict_get d (lit "matchScore") (PInt 0)))
        eqn:Hs; cbn [fst snd] in H; inversion H.
      + left. split; [reflexivity|]. right. now exists d.
      + right. now exists d. }
  split.
  - destruct Hshape as [[-> _]|(d & _ & _ & ->)]; reflexivity.
  - right. exists c, file_bytes, h, text. now repeat split.
Qed.

Lemma returned_result_shape_witness :
  fst (sample_run (Ok unparsable_answer) (Ok tt))
  = Ok (degraded_result unparsable_answer) /\
  success (degraded_result unparsable_answer) = true.
Proof.
  assert (H : fst (sample_run (Ok unparsable_answer) (Ok tt))
              = Ok (degraded_result unparsable_answer))
    by (vm_compute; reflexivity).
  split; [exact H|].
  exact (proj1 (returned_result_shape
                  (sample_globals (Ok unparsable_answer) (Ok tt))
                  (lit "Run the clusters.") (lit "SRE") sample_pdf
                  (degraded_result unparsable_answer) H)).
Defined.

(** X5 is [returned_score_shape]; here at the well-formed answer. *)
Lemma returned_score_shape_witness :
  fst (sample_run (Ok well_formed_answer) (Ok tt)) = Ok well_formed_result /\
  (is_score (matchScore well_formed_result) \/
   exists b, matchScore well_formed_result = PBool b).
Proof.
  assert (H : fst (sample_run (Ok well_formed_answer) (Ok tt))
              = Ok well_formed_result)
    by (vm_compute; reflexivity).
  split; [exact H|].
  exact (returned_score_shape
           (sample_globals (Ok well_formed_answer) (Ok tt))
           (lit "Run the clusters.") (lit "SRE") sample_pdf
           well_formed_result H).
Defined.

(** X6.  When reading the upload raises, on a configured backend, the
    handler answers with status 500 and the text of the error, and no call
    is made to the AI service. *)
Theorem read_failure_is_500
  (g : Globals) (job_description job_title : str) (resume_file : UploadFile)
  (e : exn) :
  invalid_file_type (content_type resume_file) = false ->
  GEMINI_CONFIGURED g = true ->
  read resume_file = Raise e ->
  run g job_description job_title resume_file =
  (Raise (HTTPException 500 (service_error_detail e)), []) /\
  contains (exn_str e) (service_error_detail e) = true.
Proof.
  intros Hv Hcfg Hr. split; [|apply service_error_detail_text].
  apply (run_exec _ _ _ _ _ _ (exec_read_fails _ _ _ _ Hv Hcfg e Hr)).
Qed.

Lemma read_failure_witness :
  read sample_unreadable = Raise disk_error /\
  run (sample_globals (Ok well_formed_answer) (Ok tt))
      (lit "Run the clusters.") (lit "SRE") sample_unreadable
  = (Raise (HTTPException 500 (service_error_detail disk_error)), []).
Proof.
  split; [reflexivity|].
  exact (proj1 (read_failure_is_500
                  (sample_globals (Ok well_formed_answer) (Ok tt))
                  (lit "Run the clusters.") (lit "SRE") sample_unreadable
                  disk_error eq_refl eq_refl eq_refl)).
Defined.

(** X8.  A declared media type that starts with the PDF prefix or with the
    Office Open XML word-processing prefix passes validation whatever
    follows the prefix (parameters, a longer subtype): the request goes on
    to the mock result or to the upload call, which receives the type as
    declared. *)
Lemma startswith_any_prefix (p t rest : str) (ps : list str) :
  In p ps -> t = p ++ rest -> startswith_any ps t = true.
Proof.
  intros Hin ->. unfold startswith_any. apply existsb_exists.
  exists p. split; [exact Hin|apply startswith_app].
Qed.

Theorem accepted_media_types
  (g : Globals) (job_description job_title : str) (resume_file : UploadFile)
  (t rest : str) :
  content_type resume_file = Some t ->
  t = pdf_prefix ++ rest \/ t = docx_prefix ++ rest ->
  invalid_file_type (content_type resume_file) = false /\
  (GEMINI_CONFIGURED g = false ->
   run g job_description job_title resume_file = (Ok mock_result, [])) /\
  (GEMINI_CONFIGURED g = true ->
   forall c file_bytes,
     client g = Some c -> read resume_file = Ok file_bytes ->
     exists more,
       snd (run g job_description job_title resume_file)
       = CallUpload file_bytes (Some t) :: more).
Proof.
  intros Ht Hp.
  assert (Hv : invalid_file_type (content_type resume_file) = false).
  { rewrite Ht. unfold invalid_file_type.
    destruct t as [|a t']; [reflexivity|].
    apply negb_false_iff.
    destruct Hp as [Hp|Hp];
      [apply (startswith_any_prefix pdf_prefix _ rest)
      |apply (startswith_any_prefix docx_prefix _ rest)];
      cbn [In]; auto. }
  split; [exact Hv|]. split.
  - intros Hm. apply (run_exec _ _ _ _ _ initial). now apply exec_mock.
  - intros Hcfg c file_bytes Hc Hr. rewrite <- Ht.
    destruct (files_upload c file_bytes (content_type resume_file))
      as [h|e] eqn:Hu.
    + erewrite run_exec
        by (apply (exec_uploaded _ _ _ _ Hv Hcfg c file_bytes Hc Hr h Hu)).
      cbn [snd calls]. unfold calls_after_upload, live_calls.
      destruct (build_request _ _); eauto.
    + erewrite run_exec
        by (apply (exec_upload_fails _ _ _ _ Hv Hcfg c file_bytes Hc Hr
                     e Hu)).
      cbn. eauto.
Qed.

Lemma accepted_media_types_witness :
  content_type sample_pdf_with_parameter
  = Some (pdf_prefix ++ lit "; qs=0.001") /\
  invalid_file_type (content_type sample_pdf_with_parameter) = false.
Proof.
  split; [reflexivity|].
  exact (proj1 (accepted_media_types
                  (sample_globals (Ok well_formed_answer) (Ok tt))
                  (lit "Run the clusters.") (lit "SRE")
                  sample_pdf_with_parameter
                  (pdf_prefix ++ lit "; qs=0.001") (lit "; qs=0.001")
                  eq_refl (or_introl eq_refl))).
Defined.

(** X9.  The suggestions of a degraded result are the 64 characters of the
    marker, at most 200 characters of the answer and three dots: an answer
    of at most 200 characters is quoted whole, still followed by the dots;
    a longer one loses what follows its first 200 characters. *)
Theorem degraded_excerpt_bounds (text : str) :
  List.length (parse_error_suggestions text)
  = 64 + Nat.min 200 (List.length text) + 3 /\
  (List.length text <= 200 ->
   parse_error_suggestions text = parse_error_marker ++ text ++ lit "...") /\
  (200 < List.length text ->
   exists cut, cut <> [] /\ text = slice_to 200 text ++ cut).
Proof.
  unfold parse_error_suggestions, slice_to. split; [|split].
  - rewrite !length_app, length_firstn. reflexivity.
  - intros H. now rewrite firstn_all2.
  - intros H. exists (skipn 200 text). split.
    + intros E. apply (f_equal (@List.length N)) in E.
      rewrite length_skipn in E. cbn [List.length] in E. lia.
    + now rewrite firstn_skipn.
Qed.

Lemma degraded_excerpt_witness :
  List.length unparsable_answer <= 200 /\
  parse_error_suggestions unparsable_answer
  = parse_error_marker ++ unparsable_answer ++ lit "...".
Proof.
  assert (H : List.length unparsable_answer <= 200)
    by (vm_compute; repeat constructor).
  split; [exact H|].
  exact (proj1 (proj2 (degraded_excerpt_bounds unparsable_answer)) H).
Defined.

(** Whitespace around the answer. *)
Section Padding.

Lemma lstrip_spaces (w x : str) :
  all_space w = true -> lstrip (w ++ x) = lstrip x.
Proof.
  induction w as [|a w IH]; [reflexivity|].
  unfold all_space. cbn [forallb app lstrip]. intros H.
  apply andb_true_iff in H as [Ha Hw]. rewrite Ha. now apply IH.
Qed.

Lemma all_space_rev (w : str) : all_space (rev w) = all_space w.
Proof.
  unfold all_space.
  destruct (forallb isspace w) eqn:E.
  - apply forallb_forall. intros x Hx. apply in_rev in Hx.
    revert x Hx. now apply forallb_forall.
  - destruct (forallb isspace (rev w)) eqn:E'; [|reflexivity].
    rewrite <- E. symmetry. apply forallb_forall. intros x Hx.
    apply in_rev in Hx. revert x Hx. now apply forallb_forall.
Qed.

Lemma rstrip_spaces (x w : str) :
  all_space w = true -> rstrip (x ++ w) = rstrip x.
Proof.
  intros H. unfold rstrip. rewrite rev_app_distr.
  rewrite lstrip_spaces; [reflexivity|]. now rewrite all_space_rev.
Qed.

Lemma lstrip_app (t w : str) :
  lstrip (t ++ w) = match lstrip t with
                    | [] => lstrip w
                    | _ :: _ => lstrip t ++ w
                    end.
Proof.
  induction t as [|a t IH]; cbn [app lstrip].
  - now destruct (lstrip w).
  - destruct (isspace a); [exact IH|reflexivity].
Qed.

Lemma strip_padding (w1 t w2 : str) :
  all_space w1 = true -> all_space w2 = true ->
  strip (w1 ++ t ++ w2) = strip t.
Proof.
  intros H1 H2. unfold strip. rewrite (lstrip_spaces w1 _ H1), lstrip_app.
  destruct (lstrip t) as [|a t'] eqn:E.
  - rewrite <- (app_nil_r w2), (lstrip_spaces w2 [] H2). reflexivity.
  - now apply rstrip_spaces.
Qed.

End Padding.

(** X10.  Whitespace before and after the answer is ignored by the parse
    step: the text handed to [json.loads] is the same, and so is the
    result built from an object that [json.loads] decodes from it with a
    valid match score. *)
Theorem padding_ignored (py : Interpreter) (w1 t w2 : str) :
  all_space w1 = true -> all_space w2 = true ->
  strip_fences (w1 ++ t ++ w2) = strip_fences t /\
  (forall d,
     json_loads py (strip_fences t) = Ok (PDict d) ->
     score_invalid (dict_get d (lit "matchScore") (PInt 0)) = false ->
     pending_outcome py (Ok (w1 ++ t ++ w2)) = pending_outcome py (Ok t)).
Proof.
  intros H1 H2.
  assert (E : strip_fences (w1 ++ t ++ w2) = strip_fences t)
    by (unfold strip_fences; now rewrite strip_padding).
  split; [exact E|].
  intros d Hj Hs.
  rewrite (pending_dict py t d Hj).
  rewrite <- E in Hj.
  etransitivity; [exact (pending_dict py (w1 ++ t ++ w2) d Hj)|].
  unfold fields_of. now rewrite Hs.
Qed.

Lemma padding_ignored_witness :
  all_space [10; 32; 12288]%N = true /\
  all_space [9; 13; 10]%N = true /\
  strip_fences ([10; 32; 12288]%N ++ well_formed_answer ++ [9; 13; 10]%N)
  = strip_fences well_formed_answer.
Proof.
  split; [reflexivity|]. split; [reflexivity|].
  exact (proj1 (padding_ignored sample_interpreter
                  [10; 32; 12288]%N well_formed_answer
                  [9; 13; 10]%N eq_refl eq_refl)).
Defined.

(** X11.  When [json.loads] decodes the answer to an object whose
    [matchScore] is the integer [z], the handler returns a result whose
    [matchScore] is [z] exactly when [z] lies between 0 and 100, both
    included; in that case the suggestions are those of the object or the
    default text. *)
Theorem integer_score_kept_iff_in_range
  (g : Globals) (job_description job_title : str) (resume_file : UploadFile)
  (c : Client) (file_bytes : list Byte.byte) (h : File)
  (text : str) (d : list (str * pyval)) (z : Z) :
  upload_succeeded g resume_file c file_bytes h ->
  generation g c (generate_request job_title job_description h) = Ok text ->
  files_delete c (name h) = Ok tt ->
  json_loads (interpreter g) (strip_fences text) = Ok (PDict d) ->
  dict_lookup (lit "matchScore") d = Some (PInt z) ->
  exists res,
    fst (run g job_description job_title resume_file) = Ok res /\
    (matchScore res = PInt z <-> (0 <= z <= 100)%Z) /\
    ((0 <= z <= 100)%Z ->
     suggestions res = dict_get d (lit "suggestions") (PStr no_suggestions)).
Proof.
  intros Hlive Hg Hd Hj Hz.
  rewrite (run_answered _ _ _ _ _ _ _ Hlive text Hg Hd).
  rewrite (pending_dict _ text d Hj). cbn [fst].
  unfold fields_of. rewrite (dict_get_found _ _ _ _ Hz).
  eexists. split; [reflexivity|].
  unfold score_invalid. cbn [isinstance_int int_value negb orb matchScore
                             suggestions].
  destruct (z <? 0)%Z eqn:E0; cbn [orb fst snd].
  - apply Z.ltb_lt in E0. split; [|lia].
    split; [intros H; inversion H; lia|lia].
  - apply Z.ltb_ge in E0.
    destruct (z >? 100)%Z eqn:E1; cbn [fst snd].
    + apply Z.gtb_lt in E1. split; [|lia].
      split; [intros H; inversion H; lia|lia].
    + rewrite Z.gtb_ltb in E1. apply Z.ltb_ge in E1.
      split; [|reflexivity]. split; [lia|reflexivity].
Qed.

Lemma integer_score_witness :
  json_loads sample_interpreter (strip_fences (qlit "{'matchScore': 100}"))
  = Ok (PDict [(lit "matchScore", PInt 100)]) /\
  exists res,
    fst (sample_run (Ok (qlit "{'matchScore': 100}")) (Ok tt)) = Ok res /\
    (matchScore res = PInt 100 <-> (0 <= 100 <= 100)%Z) /\
    ((0 <= 100 <= 100)%Z ->
     suggestions res = PStr no_suggestions).
Proof.
  assert (Hj : json_loads sample_interpreter
                 (strip_fences (qlit "{'matchScore': 100}"))
               = Ok (PDict [(lit "matchScore", PInt 100)]))
    by (vm_compute; reflexivity).
  split; [exact Hj|].
  exact (integer_score_kept_iff_in_range
           (sample_globals (Ok (qlit "{'matchScore': 100}")) (Ok tt))
           (lit "Run the clusters.") (lit "SRE") sample_pdf
           (sample_client (Ok (qlit "{'matchScore': 100}")) (Ok tt))
           [Byte.x25; Byte.x50; Byte.x44; Byte.x46] sample_file
           (qlit "{'matchScore': 100}") _ 100%Z
           (sample_upload_succeeded _ _) eq_refl eq_refl Hj eq_refl).
Defined.

(** X12.  The handler does not check the type of [suggestions]: when
    [json.loads] decodes the answer to an object whose match score passes
    validation, whatever decoded value stands under the key (a list, a
    number, null) is returned as it is. *)
Theorem suggestions_returned_unchecked
  (g : Globals) (job_description job_title : str) (resume_file : UploadFile)
  (c : Client) (file_bytes : list Byte.byte) (h : File)
  (text : str) (d : list (str * pyval)) (v : pyval) :
  upload_succeeded g resume_file c file_bytes h ->
  generation g c (generate_request job_title job_description h) = Ok text ->
  files_delete c (name h) = Ok tt ->
  json_loads (interpreter g) (strip_fences text) = Ok (PDict d) ->
  score_invalid (dict_get d (lit "matchScore") (PInt 0)) = false ->
  dict_lookup (lit "suggestions") d = Some v ->
  fst (run g job_description job_title resume_file) =
  Ok {| success := true;
        matchScore := dict_get d (lit "matchScore") (PInt 0);
        suggestions := v |}.
Proof.
  intros Hlive Hg Hd Hj Hs Hv.
  rewrite (run_answered _ _ _ _ _ _ _ Hlive text Hg Hd).
  rewrite (pending_dict _ text d Hj). cbn [fst].
  unfold fields_of. rewrite Hs. cbn [fst snd].
  now rewrite (dict_get_found _ _ _ _ Hv).
Qed.

Lemma suggestions_unchecked_witness :
  json_loads sample_interpreter (strip_fences list_suggestions_answer)
  = Ok (PDict [(lit "matchScore", PInt 61);
               (lit "suggestions",
                PList [PStr (lit "Add Kubernetes");
                       PStr (lit "Quantify results")])]) /\
  fst (sample_run (Ok list_suggestions_answer) (Ok tt)) =
  Ok {| success := true;
        matchScore := PInt 61;
        suggestions := PList [PStr (lit "Add Kubernetes");
                              PStr (lit "Quantify results")] |}.
Proof.
  assert (Hj : json_loads sample_interpreter
                 (strip_fences list_suggestions_answer)
               = Ok (PDict [(lit "matchScore", PInt 61);
                            (lit "suggestions",
                             PList [PStr (lit "Add Kubernetes");
                                    PStr (lit "Quantify results")])]))
    by (vm_compute; reflexivity).
  split; [exact Hj|].
  exact (suggestions_returned_unchecked
           (sample_globals (Ok list_suggestions_answer) (Ok tt))
           (lit "Run the clusters.") (lit "SRE") sample_pdf
           (sample_client (Ok list_suggestions_answer) (Ok tt))
           [Byte.x25; Byte.x50; Byte.x44; Byte.x46] sample_file
           list_suggestions_answer _ _
           (sample_upload_succeeded _ _) eq_refl eq_refl Hj eq_refl eq_refl).
Defined.

(** Answers that cannot start a JSON value. *)
Section BadStart.

Lemma startswith_head_mismatch (p p' : str) (a c : N) (s : str) :
  p = a :: p' -> (c =? a)%N = false -> startswith p (c :: s) = false.
Proof.
  intros -> H. cbn [startswith]. now rewrite N.eqb_sym, H.
Qed.

Lemma scan_once_bad_start (m fuel free : nat) (c : N) (rest : str) :
  json_start c = false ->
  scan_once m (S fuel) free (c :: rest) = DecodeError.
Proof.
  unfold json_start. intros H.
  apply orb_false_iff in H as [Hd H]. cbn [existsb] in H.
  apply orb_false_iff in H as [E34 H]. apply orb_false_iff in H as [E123 H].
  apply orb_false_iff in H as [E91 H]. apply orb_false_iff in H as [E110 H].
  apply orb_false_iff in H as [E116 H]. apply orb_false_iff in H as [E102 H].
  apply orb_false_iff in H as [E78 H]. apply orb_false_iff in H as [E73 H].
  apply orb_false_iff in H as [E45 _].
  cbn [scan_once]. rewrite E34, E123, E91.
  rewrite (startswith_head_mismatch (lit "null") _ 110 c rest eq_refl E110).
  rewrite (startswith_head_mismatch (lit "true") _ 116 c rest eq_refl E116).
  rewrite (startswith_head_mismatch (lit "false") _ 102 c rest eq_refl E102).
  rewrite (startswith_head_mismatch (lit "NaN") _ 78 c rest eq_refl E78).
  rewrite (startswith_head_mismatch (lit "Infinity") _ 73 c rest eq_refl E73).
  rewrite (startswith_head_mismatch (lit "-Infinity") _ 45 c rest eq_refl E45).
  unfold match_number. rewrite E45. unfold match_integer.
  destruct (c =? 48)%N eqn:E48.
  - apply N.eqb_eq in E48. subst c. discriminate Hd.
  - now rewrite Hd.
Qed.

Lemma json_loads_bad_start (py : Interpreter) (t : str) :
  skip_ws t = [] \/
  (exists c rest, skip_ws t = c :: rest /\ json_start c = false) ->
  json_loads py t = Raise JSONDecodeError.
Proof.
  intros H. unfold json_loads.
  destruct (startswith [65279%N] t); [reflexivity|].
  destruct H as [-> | (c & rest & -> & H)]; [reflexivity|].
  now rewrite scan_once_bad_start.
Qed.

End BadStart.

(** X13.  An answer that, its fences and leading whitespace stripped, is
    empty or starts with a character that can start no JSON value (any
    prose, a byte order mark) gives the degraded result, provided the
    deletion call returns normally. *)
Theorem unreadable_start_degrades
  (g : Globals) (job_description job_title : str) (resume_file : UploadFile)
  (c : Client) (file_bytes : list Byte.byte) (h : File) (text : str) :
  upload_succeeded g resume_file c file_bytes h ->
  generation g c (generate_request job_title job_description h) = Ok text ->
  files_delete c (name h) = Ok tt ->
  skip_ws (strip_fences text) = [] \/
  (exists a rest,
     skip_ws (strip_fences text) = a :: rest /\ json_start a = false) ->
  run g job_description job_title resume_file =
  (Ok (degraded_result text),
   live_calls file_bytes (content_type resume_file)
              (generate_request job_title job_description h) h).
Proof.
  intros Hlive Hg Hd Hs.
  rewrite (run_answered _ _ _ _ _ _ _ Hlive text Hg Hd). f_equal.
  apply (pending_caught _ text JSONDecodeError); [|reflexivity].
  now apply json_loads_bad_start.
Qed.

Lemma unreadable_start_witness :
  skip_ws (strip_fences prose_answer) = prose_answer /\
  json_start 72 = false /\
  sample_run (Ok prose_answer) (Ok tt)
  = (Ok (degraded_result prose_answer), sample_calls).
Proof.
  split; [vm_compute; reflexivity|]. split; [reflexivity|].
  refine (unreadable_start_degrades
            (sample_globals (Ok prose_answer) (Ok tt))
            (lit "Run the clusters.") (lit "SRE") sample_pdf
            (sample_client (Ok prose_answer) (Ok tt))
            [Byte.x25; Byte.x50; Byte.x44; Byte.x46] sample_file
            prose_answer
            (sample_upload_succeeded _ _) eq_refl eq_refl _).
  right. eexists 72%N, _. split; [vm_compute; reflexivity|reflexivity].
Defined.

(** X14.  With the globals set at process start the flag is true exactly
    when the client is bound.  A request with an accepted media type and a
    readable upload then gets the mock result without any call when the
    client could not be built, and reaches the upload call when it
    could. *)
Theorem startup_gates_requests
  (py : Interpreter) (t : Types) (attempt : result Client)
  (job_description job_title : str)
  (resume_file : UploadFile) (file_bytes : list Byte.byte) :
  invalid_file_type (content_type resume_file) = false ->
  read resume_file = Ok file_bytes ->
  (GEMINI_CONFIGURED (startup py t attempt) = true <->
   exists c, client (startup py t attempt) = Some c) /\
  match attempt with
  | Raise _ =>
      run (startup py t attempt) job_description job_title resume_file
      = (Ok mock_result, [])
  | Ok c =>
      exists more,
        snd (run (startup py t attempt) job_description job_title
                 resume_file)
        = CallUpload file_bytes (content_type resume_file) :: more
  end.
Proof.
  intros Hv Hr. destruct attempt as [c|e]; cbn [startup].
  - split; [split; [intros _; now exists c|reflexivity]|].
    destruct (files_upload c file_bytes (content_type resume_file))
      as [h|e] eqn:Hu.
    + rewrite (run_exec _ _ _ _ _ _
                 (exec_uploaded
                    {| interpreter := py; types := t;
                       client := Some c; GEMINI_CONFIGURED := true |}
                    job_description job_title resume_file
                    Hv eq_refl c file_bytes eq_refl Hr h Hu)).
      cbn [snd calls]. unfold calls_after_upload, live_calls.
      destruct (build_request _ _); eauto.
    + rewrite (run_exec _ _ _ _ _ _
                 (exec_upload_fails
                    {| interpreter := py; types := t;
                       client := Some c; GEMINI_CONFIGURED := true |}
                    job_description job_title resume_file
                    Hv eq_refl c file_bytes eq_refl Hr e Hu)).
      cbn. eauto.
  - split.
    + split; [discriminate|]. intros [c H]. discriminate H.
    + apply (run_exec _ _ _ _ _ initial). now apply exec_mock.
Qed.

Lemma startup_gates_witness :
  invalid_file_type (content_type sample_pdf) = false /\
  read sample_pdf = Ok [Byte.x25; Byte.x50; Byte.x44; Byte.x46] /\
  exists more,
    snd (run (startup sample_interpreter sample_types
                (Ok (sample_client (Raise quota_error) (Ok tt))))
             (lit "Run the clusters.") (lit "SRE") sample_pdf)
    = CallUpload [Byte.x25; Byte.x50; Byte.x44; Byte.x46]
                 (content_type sample_pdf) :: more.
Proof.
  split; [reflexivity|]. split; [reflexivity|].
  exact (proj2 (startup_gates_requests
                  sample_interpreter sample_types
                  (Ok (sample_client (Raise quota_error) (Ok tt)))
                  (lit "Run the clusters.") (lit "SRE") sample_pdf
                  [Byte.x25; Byte.x50; Byte.x44; Byte.x46]
                  eq_refl eq_refl)).
Defined.

(** X15.  When [json.loads] decodes the answer to an object whose
    [matchScore] is a boolean, the boolean passes the validation and is
    returned as the match score, with the suggestions of the object or the
    default text. *)
Theorem boolean_score_returned_as_is
  (g : Globals) (job_description job_title : str) (resume_file : UploadFile)
  (c : Client) (file_bytes : list Byte.byte) (h : File)
  (text : str) (d : list (str * pyval)) (b : bool) :
  upload_succeeded g resume_file c file_bytes h ->
  generation g c (generate_request job_title job_description h) = Ok text ->
  files_delete c (name h) = Ok tt ->
  json_loads (interpreter g) (strip_fences text) = Ok (PDict d) ->
  dict_lookup (lit "matchScore") d = Some (PBool b) ->
  fst (run g job_description job_title resume_file) =
  Ok {| success := true;
        matchScore := PBool b;
        suggestions :=
          dict_get d (lit "suggestions") (PStr no_suggestions) |}.
Proof.
  intros Hlive Hg Hd Hj Hb.
  rewrite (run_answered _ _ _ _ _ _ _ Hlive text Hg Hd).
  rewrite (pending_dict _ text d Hj). cbn [fst].
  unfold fields_of. rewrite (dict_get_found _ _ _ _ Hb).
  now destruct b.
Qed.

Lemma boolean_score_witness :
  json_loads sample_interpreter (strip_fences (qlit "{'matchScore': false}"))
  = Ok (PDict [(lit "matchScore", PBool false)]) /\
  fst (sample_run (Ok (qlit "{'matchScore': false}")) (Ok tt)) =
  Ok {| success := true;
        matchScore := PBool false;
        suggestions := PStr no_suggestions |}.
Proof.
  assert (Hj : json_loads sample_interpreter
                 (strip_fences (qlit "{'matchScore': false}"))
               = Ok (PDict [(lit "matchScore", PBool false)]))
    by (vm_compute; reflexivity).
  split; [exact Hj|].
  exact (boolean_score_returned_as_is
           (sample_globals (Ok (qlit "{'matchScore': false}")) (Ok tt))
           (lit "Run the clusters.") (lit "SRE") sample_pdf
           (sample_client (Ok (qlit "{'matchScore': false}")) (Ok tt))
           [Byte.x25; Byte.x50; Byte.x44; Byte.x46] sample_file
           (qlit "{'matchScore': false}") _ false
           (sample_upload_succeeded _ _) eq_refl eq_refl Hj eq_refl).
Defined.

(** The limits of the interpreter. *)
Section Limits.

Lemma scan_once_deep (m : nat) :
  forall free fuel n,
    free < n -> 2 * free < fuel ->
    scan_once m fuel free (repeat 91%N n) = TooDeep InArray.
Proof.
  induction free as [|free IH]; intros fuel n Hn Hf;
    (destruct n as [|n]; [lia|]); (destruct fuel as [|fuel]; [lia|]);
    cbn [repeat scan_once N.eqb Pos.eqb]; [reflexivity|].
  destruct n as [|n]; [lia|].
  destruct fuel as [|fuel]; [lia|].
  cbn [repeat skip_ws is_ws N.eqb Pos.eqb orb array_items].
  change (91%N :: repeat 91%N n) with (repeat 91%N (S n)).
  rewrite IH by lia. reflexivity.
Qed.

Lemma skip_ws_repeat (c : N) (n : nat) :
  is_ws c = false -> skip_ws (repeat c n) = repeat c n.
Proof. intros H. destruct n; cbn [repeat skip_ws]; now rewrite ?H. Qed.

(** More opening brackets than the interpreter has room for. *)
Lemma json_loads_deep (py : Interpreter) (n : nat) :
  2 + recursion_room py < n ->
  json_loads py (repeat 91%N n)
  = Raise (RecursionError (recursion_message InArray)).
Proof.
  intros Hn. unfold json_loads.
  assert (Hb : startswith [65279%N] (repeat 91%N n) = false)
    by (destruct n; reflexivity).
  rewrite Hb, (skip_ws_repeat 91 n eq_refl), scan_once_deep;
    [reflexivity|exact Hn|rewrite repeat_length; lia].
Qed.

Lemma span_digits_ones (k : nat) :
  span_digits (repeat 49%N k) = (repeat 49%N k, []).
Proof.
  induction k as [|k IH]; [reflexivity|].
  cbn [repeat span_digits]. change (is_digit 49) with true. cbn iota.
  now rewrite IH.
Qed.

Lemma match_number_ones (m n : nat) :
  int_too_long m (S n) = true ->
  match_number m (repeat 49%N (S n)) = IntTooLong (S n).
Proof.
  intros Hn. unfold match_number, match_integer.
  cbn -[span_digits int_too_long digits_value].
  rewrite span_digits_ones.
  cbn -[int_too_long digits_value].
  now rewrite repeat_length, Hn.
Qed.

(** An integer literal longer than the interpreter converts. *)
Lemma json_loads_long_integer (py : Interpreter) (n : nat) :
  int_too_long (int_max_str_digits py) n = true ->
  json_loads py (repeat 49%N n)
  = Raise (ValueError (int_limit_message (int_max_str_digits py) n)).
Proof.
  intros Hn. destruct n as [|n]; [discriminate Hn|].
  unfold json_loads.
  change (startswith [65279%N] (repeat 49%N (S n))) with false. cbv iota.
  rewrite (skip_ws_repeat 49 (S n) eq_refl).
  change (scan_once (int_max_str_digits py)
            (S (2 * List.length (repeat 49%N (S n))))
            (2 + recursion_room py) (repeat 49%N (S n)))
    with (match_number (int_max_str_digits py) (repeat 49%N (S n))).
  now rewrite match_number_ones.
Qed.

End Limits.

(** X16.  An answer that is, once stripped, a run of opening brackets
    longer than the interpreter has room for makes [json.loads] raise
    [RecursionError].  The inner [except] does not catch it: the handler
    answers with status 500 and the text of the error, after the three
    calls, when the deletion call returns normally. *)
Theorem deep_nesting_is_500
  (g : Globals) (job_description job_title : str) (resume_file : UploadFile)
  (c : Client) (file_bytes : list Byte.byte) (h : File)
  (text : str) (n : nat) :
  upload_succeeded g resume_file c file_bytes h ->
  generation g c (generate_request job_title job_description h) = Ok text ->
  files_delete c (name h) = Ok tt ->
  strip_fences text = repeat 91%N n ->
  2 + recursion_room (interpreter g) < n ->
  run g job_description job_title resume_file =
  (Raise (HTTPException 500
            (lit "AI Service Error: Failed to process file. Check API keys and Vercel logs. Error: "
             ++ lit "maximum recursion depth exceeded while decoding a JSON array from a unicode string")),
   live_calls file_bytes (content_type resume_file)
              (generate_request job_title job_description h) h).
Proof.
  intros Hlive Hg Hd Hs Hn.
  rewrite (run_answered _ _ _ _ _ _ _ Hlive text Hg Hd). f_equal.
  rewrite (pending_uncaught (interpreter g) text
             (RecursionError (recursion_message InArray))).
  - reflexivity.
  - rewrite Hs. now apply json_loads_deep.
  - reflexivity.
Qed.

Lemma deep_nesting_witness :
  strip_fences deep_answer = repeat 91%N 1200 /\
  2 + recursion_room sample_interpreter < 1200 /\
  sample_run (Ok deep_answer) (Ok tt) =
  (Raise (HTTPException 500
            (lit "AI Service Error: Failed to process file. Check API keys and Vercel logs. Error: "
             ++ lit "maximum recursion depth exceeded while decoding a JSON array from a unicode string")),
   sample_calls).
Proof.
  assert (Hs : strip_fences deep_answer = repeat 91%N 1200)
    by (vm_compute; reflexivity).
  assert (Hn : 2 + recursion_room sample_interpreter < 1200)
    by (apply Nat.ltb_lt; vm_compute; reflexivity).
  split; [exact Hs|]. split; [exact Hn|].
  exact (deep_nesting_is_500
           (sample_globals (Ok deep_answer) (Ok tt))
           (lit "Run the clusters.") (lit "SRE") sample_pdf
           (sample_client (Ok deep_answer) (Ok tt))
           [Byte.x25; Byte.x50; Byte.x44; Byte.x46] sample_file
           deep_answer 1200
           (sample_upload_succeeded _ _) eq_refl eq_refl Hs Hn).
Defined.

(** X17.  An answer that is, once stripped, an integer literal of more
    digits than [int] converts (more than 640, and more than the limit of
    the interpreter when one is set) makes [json.loads] raise [ValueError].
    The inner [except] catches it: the handler returns the degraded result,
    when the deletion call returns normally. *)
Theorem long_integer_degrades
  (g : Globals) (job_description job_title : str) (resume_file : UploadFile)
  (c : Client) (file_bytes : list Byte.byte) (h : File)
  (text : str) (n : nat) :
  upload_succeeded g resume_file c file_bytes h ->
  generation g c (generate_request job_title job_description h) = Ok text ->
  files_delete c (name h) = Ok tt ->
  strip_fences text = repeat 49%N n ->
  640 < n ->
  0 < int_max_str_digits (interpreter g) ->
  int_max_str_digits (interpreter g) < n ->
  run g job_description job_title resume_file =
  (Ok {| success := true;
         matchScore := PInt 50;
         suggestions :=
           PStr (lit "Error: Could not parse structured output from AI. Raw response: "
                 ++ slice_to 200 text ++ lit "...") |},
   live_calls file_bytes (content_type resume_file)
              (generate_request job_title job_description h) h).
Proof.
  intros Hlive Hg Hd Hs H640 H0 Hn.
  rewrite (run_answered _ _ _ _ _ _ _ Hlive text Hg Hd). f_equal.
  apply (pending_caught (interpreter g) text
           (ValueError
              (int_limit_message (int_max_str_digits (interpreter g)) n)));
    [|reflexivity].
  rewrite Hs. apply json_loads_long_integer. unfold int_too_long.
  apply Nat.ltb_lt in H640, H0, Hn. now rewrite H640, H0, Hn.
Qed.

Lemma long_integer_witness :
  strip_fences (repeat 49%N 4301) = repeat 49%N 4301 /\
  sample_run (Ok (repeat 49%N 4301)) (Ok tt) =
  (Ok {| success := true;
         matchScore := PInt 50;
         suggestions :=
           PStr (lit "Error: Could not parse structured output from AI. Raw response: "
                 ++ slice_to 200 (repeat 49%N 4301) ++ lit "...") |},
   sample_calls).
Proof.
  assert (Hs : strip_fences (repeat 49%N 4301) = repeat 49%N 4301)
    by (vm_compute; reflexivity).
  split; [exact Hs|].
  exact (long_integer_degrades
           (sample_globals (Ok (repeat 49%N 4301)) (Ok tt))
           (lit "Run the clusters.") (lit "SRE") sample_pdf
           (sample_client (Ok (repeat 49%N 4301)) (Ok tt))
           [Byte.x25; Byte.x50; Byte.x44; Byte.x46] sample_file
           (repeat 49%N 4301) 4301
           (sample_upload_succeeded _ _) eq_refl eq_refl Hs
           ltac:(apply Nat.ltb_lt; vm_compute; reflexivity)
           ltac:(apply Nat.ltb_lt; vm_compute; reflexivity)
           ltac:(apply Nat.ltb_lt; vm_compute; reflexivity)).
Defined.

(** X18.  The arguments of [generate_content] are built before the call.
    When one of the four constructors raises (they are tried in the order
    [Part.from_text], [Part.from_file], [Content],
    [GenerateContentConfig]), the call is never made: the calls are the
    upload and the deletion, and the handler answers with status 500 and
    the text of the error when the deletion call returns normally. *)
Theorem request_not_built_is_500
  (g : Globals) (job_description job_title : str) (resume_file : UploadFile)
  (c : Client) (file_bytes : list Byte.byte) (h : File) (e : exn) :
  upload_succeeded g resume_file c file_bytes h ->
  Part_from_text (types g) (prompt job_title job_description) = Raise e \/
  (Part_from_text (types g) (prompt job_title job_description) = Ok tt /\
   (Part_from_file (types g) h = Raise e \/
    (Part_from_file (types g) h = Ok tt /\
     (Content (types g) (lit "user") (prompt job_title job_description) h
      = Raise e \/
      (Content (types g) (lit "user") (prompt job_title job_description) h
       = Ok tt /\
       GenerateContentConfig (types g) system_instruction = Raise e))))) ->
  snd (run g job_description job_title resume_file)
  = [CallUpload file_bytes (content_type resume_file); CallDelete (name h)] /\
  (files_delete c (name h) = Ok tt ->
   fst (run g job_description job_title resume_file)
   = Raise (HTTPException 500
              (lit "AI Service Error: Failed to process file. Check API keys and Vercel logs. Error: "
               ++ exn_str e))).
Proof.
  intros Hlive Hb.
  assert (Hr : build_request (types g)
                 (generate_request job_title job_description h) = Raise e).
  { unfold build_request. cbn [generate_request text_part file_part
                               config_system_instruction].
    destruct Hb as [-> | [-> [-> | [-> [-> | [-> ->]]]]]]; reflexivity. }
  rewrite (run_not_built _ _ _ _ _ _ _ Hlive e Hr). cbn [fst snd].
  split; [reflexivity|]. now intros ->.
Qed.

Lemma request_not_built_witness :
  Part_from_text (failing_types constructor_error)
    (prompt (lit "SRE") (lit "Run the clusters."))
  = Raise constructor_error /\
  snd (run (startup sample_interpreter (failing_types constructor_error)
              (Ok (sample_client (Ok well_formed_answer) (Ok tt))))
           (lit "Run the clusters.") (lit "SRE") sample_pdf)
  = [CallUpload [Byte.x25; Byte.x50; Byte.x44; Byte.x46]
                (content_type sample_pdf);
     CallDelete (name sample_file)].
Proof.
  split; [reflexivity|].
  exact (proj1 (request_not_built_is_500
                  (startup sample_interpreter
                     (failing_types constructor_error)
                     (Ok (sample_client (Ok well_formed_answer) (Ok tt))))
                  (lit "Run the clusters.") (lit "SRE") sample_pdf
                  (sample_client (Ok well_formed_answer) (Ok tt))
                  [Byte.x25; Byte.x50; Byte.x44; Byte.x46] sample_file
                  constructor_error
                  ltac:(repeat split) (or_introl eq_refl))).
Defined.
